(** * WyzeMeshLight: the mesh-light accessory of homebridge-wyze-connected-home

    A shallow embedding of [src/accessories/WyzeMeshLight.js].

    - JavaScript numbers are IEEE 754 binary64 values, embedded as Rocq's
      primitive [float]s, so the color-temperature arithmetic is the
      arithmetic the runtime performs, roundings included.
    - [this.cache] is a JavaScript object used as a map from field names to
      values; it is a [gmap string jsval].  A field that was never written
      reads as [undefined].
    - The Lightbulb service is the map from each characteristic to the
      value last handed to its [updateValue].
    - An [async] handler runs up to its [await] and is resumed when the
      awaited promise settles; a handler is therefore a [task]: either
      finished, or suspended on a buffered property write together with the
      code that runs on resumption.
    - The [color-convert] package, the runtime's string-to-number conversion
      and the base class's [setBufferedProperty] / [getPropertyList] are
      collaborators of the accessory; they are parameters of the model.
    - The values that reach the accessory are primitive values; the
      [callback] of a request returns normally.
    - Calls to [this.plugin.log] have no effect on the accessory and are
      left out. *)

From Stdlib Require Import ZArith QArith Qround Ascii.
From Stdlib Require Import Floats.PrimFloat Floats.FloatOps Floats.SpecFloat.
From stdpp Require Import gmap strings list.

(** ** JavaScript values *)

Inductive jsval :=
| VUndefined
| VNull
| VBool (b : bool)
| VNum (x : float)
| VStr (s : string).

(** What a [throw] or a rejected promise carries. *)
Record error := Error { message : string }.

(** The result of evaluating a call that may throw. *)
Inductive completion (A : Type) :=
| Normal (a : A)
| Throw (e : error).
Arguments Normal {A} a.
Arguments Throw {A} e.

#[global] Instance completion_ret : MRet completion := λ A a, Normal a.
#[global] Instance completion_bind : MBind completion := λ A B k c,
  match c with
  | Normal a => k a
  | Throw e => Throw e
  end.

(** What a conversion of a color library takes or returns where an array
    is expected: an array, or some other value. *)
Inductive jsany :=
| Array (elems : list jsval)
| Prim (v : jsval).

(** [a[i]] on an array: the element, [undefined] past the end. *)
Definition element (a : list jsval) (i : nat) : jsval := default VUndefined (a !! i).

(** Reading an index of [undefined] or [null]. *)
Definition TypeError : error :=
  Error "Cannot read properties of undefined".

(** [x[i]]: an element of an array, a character of a string, [undefined]
    on a Number or a boolean, a TypeError on [undefined] and [null]. *)
Definition index (x : jsany) (i : nat) : completion jsval :=
  match x with
  | Array a => Normal (element a i)
  | Prim (VUndefined | VNull) => Throw TypeError
  | Prim (VStr s) =>
      Normal (match String.get i s with
              | Some c => VStr (String c EmptyString)
              | None => VUndefined
              end)
  | Prim _ => Normal VUndefined
  end.

(** How an awaited promise settles. *)
Inductive outcome :=
| Resolved
| Rejected (e : error).

(** ** Numbers *)

(** The Number whose mathematical value is the integer [n] (exact for
    [|n| < 2^53]). *)
Definition Number_of_Z (n : Z) : float :=
  SF2Prim match n with
          | Z0 => S754_zero false
          | Zpos p => S754_finite false p 0
          | Zneg p => S754_finite true p 0
          end.

(** The integer a Number holds, when it holds one. *)
Definition Number_to_Z (x : float) : option Z :=
  match Prim2SF x with
  | S754_zero _ => Some 0%Z
  | S754_finite s m e =>
      let a := if s then Zneg m else Zpos m in
      if (0 <=? e)%Z then Some (a * 2 ^ e)%Z
      else if (a mod 2 ^ (- e) =? 0)%Z then Some (a / 2 ^ (- e))%Z
           else None
  | _ => None
  end.

Module Math.

(** [Math.round]: the integral Number closest to [x], ties towards
    [+∞]; NaN, the infinities and integral values (both zeros included)
    are returned as they are; a result of zero keeps the sign of [x]. *)
Definition round (x : float) : float :=
  match Prim2SF x with
  | S754_finite s m e =>
      if (0 <=? e)%Z then x
      else
        let a := if s then Zneg m else Zpos m in
        let n := Z.shiftr (2 * a + 2 ^ (- e)) (- e + 1) in
        if (n =? 0)%Z then (if s then neg_zero else zero) else Number_of_Z n
  | _ => x
  end.

(** [Math.floor] *)
Definition floor (x : float) : float :=
  match Prim2SF x with
  | S754_finite s m e =>
      if (0 <=? e)%Z then x
      else Number_of_Z (Z.shiftr (if s then Zneg m else Zpos m) (- e))
  | _ => x
  end.

Definition max2 (a b : float) : float :=
  if is_nan a || is_nan b then nan
  else if (a <? b)%float then b
  else if (b <? a)%float then a
  else if get_sign a then b else a.

Definition min2 (a b : float) : float :=
  if is_nan a || is_nan b then nan
  else if (a <? b)%float then a
  else if (b <? a)%float then b
  else if get_sign a then a else b.

(** [Math.max(...l)] and [Math.min(...l)] *)
Definition max (l : list float) : float := foldl max2 neg_infinity l.
Definition min (l : list float) : float := foldl min2 infinity l.

End Math.

(** ** Collaborators *)

(** The runtime's conversion of a string to a Number (ECMAScript
    [StringToNumber]), used wherever arithmetic is applied to a string. *)
Class Runtime := { StringToNumber : string → float }.

(** The four conversions of the [color-convert] package the accessory
    calls.  Each may throw. *)
Class ColorConvert := {
  hsv_rgb : jsval → jsval → jsval → completion jsany;
  rgb_hex : jsany → completion jsval;
  hex_rgb : jsval → completion jsany;
  rgb_hsv : jsany → completion jsany
}.

Definition ToNumber `{Runtime} (v : jsval) : float :=
  match v with
  | VUndefined => nan
  | VNull => 0%float
  | VBool b => if b then 1%float else 0%float
  | VNum x => x
  | VStr s => StringToNumber s
  end.

Definition ToBoolean (v : jsval) : bool :=
  match v with
  | VUndefined | VNull => false
  | VBool b => b
  | VNum x => negb (is_zero x || is_nan x)
  | VStr s => negb (String.eqb s "")
  end.

(** ** The accessory *)

Definition WYZE_API_POWER_PROPERTY : string := "P3".
Definition WYZE_API_BRIGHTNESS_PROPERTY : string := "P1501".
Definition WYZE_API_COLOR_TEMP_PROPERTY : string := "P1502".
Definition WYZE_API_COLOR_PROPERTY : string := "P1507".

Definition WYZE_COLOR_TEMP_MIN : float := 1800.
Definition WYZE_COLOR_TEMP_MAX : float := 6500.
Definition HOMEKIT_COLOR_TEMP_MIN : float := 153.
Definition HOMEKIT_COLOR_TEMP_MAX : float := 555.

(** The characteristics of the Lightbulb service the accessory drives. *)
Inductive characteristic := On | Brightness | ColorTemperature | Hue | Saturation.

#[global] Instance characteristic_eq_dec : EqDecision characteristic.
Proof. solve_decision. Defined.

#[global] Instance characteristic_countable : Countable characteristic.
Proof.
  refine (inj_countable'
    (λ c, match c with
          | On => 0 | Brightness => 1 | ColorTemperature => 2
          | Hue => 3 | Saturation => 4
          end)
    (λ n, match n with
          | 0 => On | 1 => Brightness | 2 => ColorTemperature
          | 3 => Hue | _ => Saturation
          end) _).
  by intros [].
Defined.

(** The mutable state of one accessory: [this.cache], [this.cacheUpdated],
    and the values last handed to [updateValue] of each characteristic. *)
Record accessory := Accessory {
  cache : gmap string jsval;
  cacheUpdated : bool;
  characteristics : gmap characteristic jsval
}.

(** Synchronous code of the accessory: it changes the state and completes
    normally or throws; what it changed before a [throw] stays changed. *)
Definition action (A : Type) : Type := accessory → accessory * completion A.

#[global] Instance action_ret : MRet action := λ A a st, (st, Normal a).
#[global] Instance action_bind : MBind action := λ A B k m st,
  match m st with
  | (st', Normal a) => k a st'
  | (st', Throw e) => (st', Throw e)
  end.

(** An expression evaluated for its value. *)
Definition eval {A} (c : completion A) : action A := λ st, (st, c).

(** A statement that updates the state and cannot throw. *)
Definition exec (f : accessory → accessory) : action () := λ st, (f st, Normal ()).

(** [this.cache = {}; this.cacheUpdated = false;] on top of the service
    the platform accessory already has. *)
Definition constructor (service : gmap characteristic jsval) : accessory :=
  {| cache := ∅; cacheUpdated := false; characteristics := service |}.

(** [this.cache.field] *)
Definition cache_get (field : string) (st : accessory) : jsval :=
  default VUndefined (cache st !! field).

(** [this.cache.field = v] *)
Definition cache_set (field : string) (v : jsval) (st : accessory) : accessory :=
  {| cache := <[field := v]> (cache st);
     cacheUpdated := cacheUpdated st;
     characteristics := characteristics st |}.

(** [this.cacheUpdated = b] *)
Definition cacheUpdated_set (b : bool) (st : accessory) : accessory :=
  {| cache := cache st; cacheUpdated := b; characteristics := characteristics st |}.

(** [this.getCharacteristic(c).updateValue(v)] *)
Definition updateValue (c : characteristic) (v : jsval) (st : accessory) : accessory :=
  {| cache := cache st;
     cacheUpdated := cacheUpdated st;
     characteristics := <[c := v]> (characteristics st) |}.

(** *** Range remap *)

(** [(value - min) / (max - min)]; the subtraction converts [value] to a
    Number. *)
Definition _rangeToFloat `{Runtime} (value : jsval) (min max : float) : float :=
  ((ToNumber value - min) / (max - min))%float.

(** [Math.round((value * (max - min)) + min)] *)
Definition _floatToRange (value min max : float) : float :=
  Math.round ((value * (max - min)) + min)%float.

(** The conversion [updateColorTemp] applies to a device value. *)
Definition deviceToUI `{Runtime} (value : jsval) : float :=
  let floatValue := _rangeToFloat value WYZE_COLOR_TEMP_MIN WYZE_COLOR_TEMP_MAX in
  _floatToRange floatValue HOMEKIT_COLOR_TEMP_MIN HOMEKIT_COLOR_TEMP_MAX.

(** The conversion [setColorTemperature] applies to a HomeKit value. *)
Definition uiToDevice `{Runtime} (value : jsval) : float :=
  let floatValue := _rangeToFloat value HOMEKIT_COLOR_TEMP_MIN HOMEKIT_COLOR_TEMP_MAX in
  _floatToRange floatValue WYZE_COLOR_TEMP_MIN WYZE_COLOR_TEMP_MAX.

(** The range remap of the specification, in exact rational arithmetic:
    [round(((v - srcMin) / (srcMax - srcMin)) * (dstMax - dstMin) + dstMin)],
    rounding to the nearest integer, halves upwards. *)
Definition remap_exact (v srcMin srcMax dstMin dstMax : Z) : Z :=
  Qfloor ((inject_Z (v - srcMin) / inject_Z (srcMax - srcMin))
          * inject_Z (dstMax - dstMin) + inject_Z dstMin + (1 # 2))%Q.

(** *** Remote-to-local projection *)

(** One entry of [propertyList.data.property_list]. *)
Record property := Property { pid : string; value : jsval }.

(** What [await this.getPropertyList()] yields. *)
Inductive response :=
| PropertyList (property_list : list property)
| Failed (e : error).

Definition updateBrightness (value : jsval) (st : accessory) : accessory :=
  updateValue Brightness value st.

Definition updateColorTemp `{Runtime} (value : jsval) (st : accessory) : accessory :=
  let homeKitValue := deviceToUI value in
  updateValue ColorTemperature (VNum homeKitValue) st.

Definition updateHue (value : jsval) (st : accessory) : accessory :=
  updateValue Hue value st.

Definition updateSaturation (value : jsval) (st : accessory) : accessory :=
  updateValue Saturation value st.

(** [ColorConverter.rgb.hsv(ColorConverter.hex.rgb(value))] *)
Definition hslValue `{ColorConvert} (value : jsval) : completion jsany :=
  rgb ← hex_rgb value; rgb_hsv rgb.

Definition updateColor `{ColorConvert} (value : jsval) : action () :=
  hsl ← eval (hslValue value);
  h ← eval (index hsl 0); exec (updateHue h);;
  h ← eval (index hsl 0); exec (cache_set "hue" h);;
  s ← eval (index hsl 1); exec (updateSaturation s);;
  s ← eval (index hsl 1); exec (cache_set "saturation" s);;
  b ← eval (index hsl 2); exec (cache_set "brightness" b).

(** The body of the [for] loop: the [switch] on [property.pid]; a pid
    without a [case] does nothing. *)
Definition dispatch `{Runtime} `{ColorConvert} (p : property) : action () :=
  if String.eqb (pid p) WYZE_API_BRIGHTNESS_PROPERTY then
    exec (updateBrightness (value p))
  else if String.eqb (pid p) WYZE_API_COLOR_TEMP_PROPERTY then
    exec (updateColorTemp (value p))
  else if String.eqb (pid p) WYZE_API_COLOR_PROPERTY then
    updateColor (value p)
  else mret ().

Fixpoint for_each_property `{Runtime} `{ColorConvert}
  (property_list : list property) : action () :=
  match property_list with
  | [] => mret ()
  | p :: rest => dispatch p;; for_each_property rest
  end.

(** [updateCharacteristics(device)]: [On] is updated from
    [device.device_params.switch_state], then the method awaits the
    property list; the second component is the code that runs when the
    list arrives, on the state the accessory has by then. *)
Definition updateCharacteristics `{Runtime} `{ColorConvert}
  (switch_state : jsval) (st : accessory) : accessory * (response → action ()) :=
  (updateValue On switch_state st,
   λ r, match r with
        | PropertyList property_list => for_each_property property_list
        | Failed e => eval (Throw e)
        end).

(** One poll with nothing else running in between: the projection of a
    power flag and a property-list snapshot. *)
Definition project `{Runtime} `{ColorConvert}
  (switch_state : jsval) (r : response) : action () := λ st,
  let '(st1, resume) := updateCharacteristics switch_state st in
  resume r st1.

(** *** Local-to-remote command dispatch *)

(** What a handler does that its collaborators can observe. *)
Inductive event :=
| setBufferedProperty (pid : string) (v : jsval)
| callback (err : option error).

(** A handler either runs to its end, or suspends on
    [await this.setBufferedProperty(pid, v)]; [resume] is the rest of the
    handler, run on the state the accessory has when the promise settles. *)
Inductive task :=
| Finished (st : accessory) (out : list event)
| Awaiting (st : accessory) (pid : string) (v : jsval)
           (resume : outcome → accessory → accessory * list event).

Definition setOn (value : jsval) (st : accessory) : task :=
  Awaiting st WYZE_API_POWER_PROPERTY (VStr (if ToBoolean value then "1" else "0"))
    (λ o st', match o with
              | Resolved => (st', [callback None])
              | Rejected e => (st', [callback (Some e)])
              end).

Definition setBrightness (value : jsval) (st : accessory) : task :=
  Awaiting st WYZE_API_BRIGHTNESS_PROPERTY value
    (λ o st', match o with
              | Resolved => (cache_set "brightness" value st', [callback None])
              | Rejected e => (st', [callback (Some e)])
              end).

Definition setColorTemperature `{Runtime} (value : jsval) (st : accessory) : task :=
  let wyzeValue := uiToDevice value in
  Awaiting st WYZE_API_COLOR_TEMP_PROPERTY (VNum wyzeValue)
    (λ o st', match o with
              | Resolved => (st', [callback None])
              | Rejected e => (st', [callback (Some e)])
              end).

(** [ColorConverter.rgb.hex(ColorConverter.hsv.rgb(this.cache.hue,
    this.cache.saturation, 100))] *)
Definition hexValue `{ColorConvert} (st : accessory) : completion jsval :=
  rgb ← hsv_rgb (cache_get "hue" st) (cache_get "saturation" st) (VNum 100);
  rgb_hex rgb.

(** The rest of [applyColorCache] after its [await]. *)
Definition applyColorCache_resume (o : outcome) (st' : accessory)
  : accessory * list event :=
  match o with
  | Resolved => (cacheUpdated_set false st', [callback None])
  | Rejected e => (st', [callback (Some e)])
  end.

Definition applyColorCache `{ColorConvert} (st : accessory) : task :=
  if cacheUpdated st then
    match hexValue st with
    | Normal hex => Awaiting st WYZE_API_COLOR_PROPERTY hex applyColorCache_resume
    | Throw e => Finished st [callback (Some e)]
    end
  else Finished (cacheUpdated_set true st) [callback None].

Definition setHue `{ColorConvert} (value : jsval) (st : accessory) : task :=
  applyColorCache (cache_set "hue" value st).

Definition setSaturation `{ColorConvert} (value : jsval) (st : accessory) : task :=
  applyColorCache (cache_set "saturation" value st).

(** *** Sequences of local writes *)

(** A write request of the UI layer, one per [set] handler. *)
Inductive request :=
| SetOn (value : jsval)
| SetBrightness (value : jsval)
| SetColorTemperature (value : jsval)
| SetHue (value : jsval)
| SetSaturation (value : jsval).

Definition handle `{Runtime} `{ColorConvert} (r : request) : accessory → task :=
  match r with
  | SetOn v => setOn v
  | SetBrightness v => setBrightness v
  | SetColorTemperature v => setColorTemperature v
  | SetHue v => setHue v
  | SetSaturation v => setSaturation v
  end.

(** A handler whose remote write, if it issues one, settles with [o]
    before anything else touches the accessory: the final state and
    everything the handler did, in order. *)
Definition settle (o : outcome) (t : task) : accessory * list event :=
  match t with
  | Finished st out => (st, out)
  | Awaiting st pid v resume =>
      let '(st', out) := resume o st in (st', setBufferedProperty pid v :: out)
  end.

(** Requests handled one after the other, each paired with the way its
    remote write settles if it issues one; the result lists what each
    request did. *)
Fixpoint run `{Runtime} `{ColorConvert}
  (rs : list (request * outcome)) (st : accessory) : accessory * list (list event) :=
  match rs with
  | [] => (st, [])
  | (r, o) :: rest =>
      let '(st1, out) := settle o (handle r st) in
      let '(st2, outs) := run rest st1 in
      (st2, out :: outs)
  end.

(** ** A reference instance of the collaborators

    The theorems below hold for every [Runtime] and every [ColorConvert].
    To run the accessory on concrete requests one instance of each is
    written out here: the conversions of color-convert 2.0.1
    ([conversions.js] behind the rounding wrapper of [index.js]), and a
    string-to-number conversion for plain decimal integers. *)
Module Reference.

(** *** Number operators *)

Fixpoint strip (p : positive) (e : Z) : positive * Z :=
  match p with
  | xO p' => strip p' (e + 1)%Z
  | _ => (p, e)
  end.

(** [a % b]: the remainder of the truncating division, with the sign of
    [a]; it is always exact. *)
Definition rem (a b : float) : float :=
  match Prim2SF a, Prim2SF b with
  | S754_finite sa ma ea, S754_finite _ mb eb =>
      let e := Z.min ea eb in
      let r := Z.rem (Zpos ma * 2 ^ (ea - e)) (Zpos mb * 2 ^ (eb - e)) in
      match r with
      | Zpos p => let '(p', e') := strip p e in SF2Prim (S754_finite sa p' e')
      | _ => if sa then neg_zero else zero
      end
  | S754_zero _, S754_finite _ _ _
  | S754_zero _, S754_infinity _
  | S754_finite _ _ _, S754_infinity _ => a
  | _, _ => nan
  end.

Definition wrap32 (n : Z) : Z :=
  let w := (n mod 2 ^ 32)%Z in
  if (w <? 2 ^ 31)%Z then w else (w - 2 ^ 32)%Z.

Definition ToInt32 (x : float) : Z :=
  match Prim2SF x with
  | S754_finite s m e =>
      let t := if (0 <=? e)%Z then (Zpos m * 2 ^ e)%Z else Z.shiftr (Zpos m) (- e) in
      wrap32 (if s then - t else t)%Z
  | _ => 0%Z
  end.

(** [a & b], [a << n] and [a >> n] on operands already converted. *)
Definition band (a b : Z) : Z := wrap32 (Z.land a b).
Definition shl (a n : Z) : Z := wrap32 (Z.shiftl a (n mod 32)).
Definition sar (a n : Z) : Z := Z.shiftr a (n mod 32).

(** *** Strings of hexadecimal digits *)

Definition hex_digit (d : Z) : ascii :=
  ascii_of_nat (Z.to_nat (if (d <? 10)%Z then 48 + d else 55 + d)%Z).

Fixpoint to_hex (fuel : nat) (n : Z) (acc : string) : string :=
  match fuel with
  | O => acc
  | S fuel' =>
      let acc' := String (hex_digit (n mod 16)) acc in
      if (n / 16 =? 0)%Z then acc' else to_hex fuel' (n / 16)%Z acc'
  end.

(** [n.toString(16).toUpperCase()] for an integer [0 <= n]. *)
Definition toString16_upper (n : Z) : string :=
  to_hex (S (Z.to_nat (Z.log2 n))) n "".

(** The value of a hexadecimal digit, either case. *)
Definition hex_value (c : ascii) : option Z :=
  let n := Z.of_nat (nat_of_ascii c) in
  if ((48 <=? n) && (n <=? 57))%Z then Some (n - 48)%Z
  else if ((97 <=? n) && (n <=? 102))%Z then Some (n - 87)%Z
  else if ((65 <=? n) && (n <=? 70))%Z then Some (n - 55)%Z
  else None.

(** The next [n] characters, when all are hexadecimal digits. *)
Fixpoint take_hex (n : nat) (s : string) : option string :=
  match n, s with
  | O, _ => Some EmptyString
  | S n', String c s' =>
      match hex_value c with
      | Some _ => String c <$> take_hex n' s'
      | None => None
      end
  | S _, EmptyString => None
  end.

(** [s.match(/[a-f0-9]{6}|[a-f0-9]{3}/i)]: the leftmost position where
    six digits, or else three, can be read. *)
Fixpoint hex_match (s : string) : option string :=
  match take_hex 6 s with
  | Some m => Some m
  | None =>
      match take_hex 3 s with
      | Some m => Some m
      | None =>
          match s with
          | EmptyString => None
          | String _ s' => hex_match s'
          end
      end
  end.

(** [parseInt(s, 16)] on a string of hexadecimal digits. *)
Fixpoint parseInt16 (acc : Z) (s : string) : Z :=
  match s with
  | EmptyString => acc
  | String c s' => parseInt16 (16 * acc + default 0 (hex_value c))%Z s'
  end.

(** [s.split('').map(char => char + char).join('')] *)
Fixpoint double_chars (s : string) : string :=
  match s with
  | EmptyString => EmptyString
  | String c s' => String c (String c (double_chars s'))
  end.

(** The characters of a string, as the array-like thing indexing sees. *)
Fixpoint chars (s : string) : list jsval :=
  match s with
  | EmptyString => []
  | String c s' => VStr (String c EmptyString) :: chars s'
  end.

(** *** String to Number *)

Fixpoint digits (acc : Z) (s : string) : option Z :=
  match s with
  | EmptyString => Some acc
  | String c s' =>
      let n := Z.of_nat (nat_of_ascii c) in
      if ((48 <=? n) && (n <=? 57))%Z then digits (10 * acc + (n - 48))%Z s'
      else None
  end.

(** Strings of at most fifteen decimal digits denote their integer and
    the empty string denotes zero, as in ECMAScript; every other string
    is given NaN, which ECMAScript gives only to the strings that are
    not numeric literals. *)
Definition runtime : Runtime :=
  {| StringToNumber := λ s,
       match digits 0 s with
       | Some n => if (String.length s <=? 15)%nat then Number_of_Z n else nan
       | None => nan
       end |}.

Section Conversions.

Context `{Runtime}.

(** *** conversions.js *)

Definition hsv_rgb_raw (hsv : list jsval) : jsany :=
  let h := (ToNumber (element hsv 0) / 60)%float in
  let s := (ToNumber (element hsv 1) / 100)%float in
  let v := (ToNumber (element hsv 2) / 100)%float in
  let hi := rem (Math.floor h) 6 in
  let f := (h - Math.floor h)%float in
  let p := (255 * v * (1 - s))%float in
  let q := (255 * v * (1 - (s * f)))%float in
  let t := (255 * v * (1 - (s * (1 - f))))%float in
  let v := (v * 255)%float in
  if (hi =? 0)%float then Array [VNum v; VNum t; VNum p]
  else if (hi =? 1)%float then Array [VNum q; VNum v; VNum p]
  else if (hi =? 2)%float then Array [VNum p; VNum v; VNum t]
  else if (hi =? 3)%float then Array [VNum p; VNum q; VNum v]
  else if (hi =? 4)%float then Array [VNum t; VNum p; VNum v]
  else if (hi =? 5)%float then Array [VNum v; VNum p; VNum q]
  else Prim VUndefined.

Definition rgb_hex_raw (args : list jsval) : jsval :=
  let byte i := band (ToInt32 (Math.round (ToNumber (element args i)))) 255 in
  let integer := (shl (byte 0%nat) 16 + shl (byte 1%nat) 8 + byte 2%nat)%Z in
  let string := toString16_upper integer in
  VStr (String.string_of_list_ascii (replicate (6 - String.length string) "0"%char)
        +:+ string).

Definition hex_rgb_raw (args : string) : jsany :=
  match hex_match args with
  | None => Array [VNum 0; VNum 0; VNum 0]
  | Some m =>
      let colorString := if (String.length m =? 3)%nat then double_chars m else m in
      let integer := parseInt16 0 colorString in
      let r := band (sar integer 16) 255 in
      let g := band (sar integer 8) 255 in
      let b := band integer 255 in
      Array [VNum (Number_of_Z r); VNum (Number_of_Z g); VNum (Number_of_Z b)]
  end.

Definition rgb_hsv_raw (rgb : list jsval) : jsany :=
  let r := (ToNumber (element rgb 0) / 255)%float in
  let g := (ToNumber (element rgb 1) / 255)%float in
  let b := (ToNumber (element rgb 2) / 255)%float in
  let v := Math.max [r; g; b] in
  let diff := (v - Math.min [r; g; b])%float in
  let diffc c := ((v - c) / 6 / diff + 1 / 2)%float in
  if (diff =? 0)%float then
    Array [VNum (0 * 360); VNum (0 * 100); VNum (v * 100)]
  else
    let s := (diff / v)%float in
    let rdif := diffc r in
    let gdif := diffc g in
    let bdif := diffc b in
    let h := if (r =? v)%float then (bdif - gdif)%float
             else if (g =? v)%float then ((1 / 3) + rdif - bdif)%float
             else if (b =? v)%float then ((2 / 3) + gdif - rdif)%float
             else nan in
    let h := if (h <? 0)%float then (h + 1)%float
             else if (1 <? h)%float then (h - 1)%float
             else h in
    Array [VNum (h * 360); VNum (s * 100); VNum (v * 100)].

(** *** index.js: the wrapper around each conversion *)

(** The rounding of an array result, element by element. *)
Definition rounded (result : jsany) : jsany :=
  match result with
  | Array l => Array ((λ x, VNum (Math.round (ToNumber x))) <$> l)
  | Prim v => Prim v
  end.

(** The argument list of a call with the single argument [arg0], after
    [if (arg0.length > 1) args = arg0]; an array of one element or
    none stays wrapped and later converts to a Number as its element
    does. *)
Definition args_of (arg0 : jsany) : list jsval :=
  match arg0 with
  | Array [] => [VNum 0]
  | Array [VUndefined] | Array [VNull] => [VNum 0]
  | Array [VBool _] => [VNum nan]
  | Array [x] => [x]
  | Array l => l
  | Prim (VStr s) => if (1 <? String.length s)%nat then chars s else [VStr s]
  | Prim v => [v]
  end.

Definition outside : error := Error "outside the reference instance".

Definition color_convert : ColorConvert :=
  {| hsv_rgb := λ h s v,
       match h with
       | VUndefined | VNull => Normal (Prim h)
       | VStr str =>
           if (1 <? String.length str)%nat
           then Normal (rounded (hsv_rgb_raw (chars str)))
           else Normal (rounded (hsv_rgb_raw [h; s; v]))
       | _ => Normal (rounded (hsv_rgb_raw [h; s; v]))
       end;
     rgb_hex := λ rgb,
       match rgb with
       | Prim VUndefined => Normal VUndefined
       | Prim VNull => Normal VNull
       | _ => Normal (rgb_hex_raw (args_of rgb))
       end;
     hex_rgb := λ value,
       match value with
       | VUndefined | VNull => Normal (Prim value)
       | VStr s => Normal (rounded (hex_rgb_raw s))
       | VBool b => Normal (rounded (hex_rgb_raw (if b then "true" else "false")))
       | VNum _ => Throw outside
       end;
     rgb_hsv := λ rgb,
       match rgb with
       | Prim VUndefined | Prim VNull => Normal rgb
       | _ => Normal (rounded (rgb_hsv_raw (args_of rgb)))
       end |}.

End Conversions.

End Reference.

(** An error a rejected write may carry. *)
Definition timeout : error := Error "timeout".

(** ** Vocabulary of the coalescing claims *)

(** The requests that go through [applyColorCache]. *)
Definition is_color_request (r : request) : bool :=
  match r with
  | SetHue _ | SetSaturation _ => true
  | _ => false
  end.

(** The assignment a hue or saturation handler makes before it calls
    [applyColorCache]. *)
Definition store (r : request) (st : accessory) : accessory :=
  match r with
  | SetHue v => cache_set "hue" v st
  | SetSaturation v => cache_set "saturation" v st
  | _ => st
  end.

(** The callback argument that reports [o]. *)
Definition report (o : outcome) : option error :=
  match o with
  | Resolved => None
  | Rejected e => Some e
  end.

Definition is_color_write (e : event) : bool :=
  match e with
  | setBufferedProperty pid _ => String.eqb pid WYZE_API_COLOR_PROPERTY
  | callback _ => false
  end.

(** A request flushed: it issued a color write. *)
Definition flushes (out : list event) : bool := existsb is_color_write out.

(** A request completed a flush: it issued a write and reported success. *)
Definition completes_flush (out : list event) : bool :=
  match out with
  | [setBufferedProperty _ _; callback None] => true
  | _ => false
  end.

(** The number of requests handled since the last completed flush, after
    [rs] has run from [st] with [n] such requests already counted. *)
Fixpoint since_flush `{Runtime} `{ColorConvert}
  (n : nat) (rs : list (request * outcome)) (st : accessory) : nat :=
  match rs with
  | [] => n
  | (r, o) :: rest =>
      let '(st1, out) := settle o (handle r st) in
      since_flush (if completes_flush out then 0 else S n) rest st1
  end.

(** The invariant as the specification words it: along a run, every
    request that flushes does so when a hue and a saturation have both
    been supplied since the previous flush, its own value included.
    [hue] and [sat] say which have been supplied so far. *)
Fixpoint both_supplied_at_each_flush `{Runtime} `{ColorConvert}
  (hue sat : bool) (rs : list (request * outcome)) (st : accessory) : bool :=
  match rs with
  | [] => true
  | (r, o) :: rest =>
      let hue' := hue || match r with SetHue _ => true | _ => false end in
      let sat' := sat || match r with SetSaturation _ => true | _ => false end in
      let '(st1, out) := settle o (handle r st) in
      if flushes out
      then hue' && sat' && both_supplied_at_each_flush false false rest st1
      else both_supplied_at_each_flush hue' sat' rest st1
  end.

(** ** Vocabulary of the projection claims *)

(** What a step of the projection does to the characteristics does not
    depend on the state it starts from: it lays a fixed map over them. *)
Definition overlays (m : action ()) : Prop :=
  ∃ (M : gmap characteristic jsval) (c : completion ()),
    ∀ st, (m st).2 = c ∧ characteristics (m st).1 = M ∪ characteristics st.

(** ** Checking a property of integers over a whole interval *)

(** The integers [lo, lo+1, ..., lo+n-1]. *)
Definition interval (lo : Z) (n : nat) : list Z :=
  (λ i, lo + Z.of_nat i)%Z <$> seq 0 n.

(** On in-range integers the Numbers the code computes hold the integers
    of the exact remap. *)
Definition deviceToUI_is_exact `{Runtime} (n : Z) : bool :=
  bool_decide (Number_to_Z (deviceToUI (VNum (Number_of_Z n)))
               = Some (remap_exact n 1800 6500 153 555)).

Definition uiToDevice_is_exact `{Runtime} (n : Z) : bool :=
  bool_decide (Number_to_Z (uiToDevice (VNum (Number_of_Z n)))
               = Some (remap_exact n 153 555 1800 6500)).

(** [Math.abs(deviceToUI(uiToDevice(deviceToUI(n))) - deviceToUI(n)) <= 1] *)
Definition round_trip_within_one `{Runtime} (n : Z) : bool :=
  let d := deviceToUI (VNum (Number_of_Z n)) in
  (abs (deviceToUI (VNum (uiToDevice (VNum d))) - d) <=? 1)%float.

(** ** Vocabulary of the further properties *)

(** The integer [deviceToUI] gives for the integer [n], when it gives one. *)
Definition deviceToUI_Z `{Runtime} (n : Z) : option Z :=
  Number_to_Z (deviceToUI (VNum (Number_of_Z n))).

(** The integer [uiToDevice] gives for the integer [n], when it gives one. *)
Definition uiToDevice_Z `{Runtime} (n : Z) : option Z :=
  Number_to_Z (uiToDevice (VNum (Number_of_Z n))).

(** [deviceToUI(uiToDevice(n)) === n] *)
Definition ui_round_trip_exact `{Runtime} (n : Z) : bool :=
  (deviceToUI (VNum (uiToDevice (VNum (Number_of_Z n)))) =? Number_of_Z n)%float
  && bool_decide (Number_to_Z (deviceToUI (VNum (uiToDevice (VNum (Number_of_Z n)))))
                  = Some n).

(** [Math.abs(uiToDevice(deviceToUI(n)) - n) <= 6] *)
Definition device_round_trip_within_six `{Runtime} (n : Z) : bool :=
  (abs (uiToDevice (VNum (deviceToUI (VNum (Number_of_Z n)))) - Number_of_Z n) <=? 6)%float.

Definition between (lo hi : Z) (x : option Z) : bool :=
  match x with
  | Some m => ((lo <=? m) && (m <=? hi))%Z
  | None => false
  end.

Definition option_le (x y : option Z) : bool :=
  match x, y with
  | Some a, Some b => (a <=? b)%Z
  | _, _ => false
  end.

Definition option_lt (x y : option Z) : bool :=
  match x, y with
  | Some a, Some b => (a <? b)%Z
  | _, _ => false
  end.

(** The number of requests of a run that issued a color write. *)
Definition flush_count (outs : list (list event)) : nat :=
  length (List.filter flushes outs).

(** The properties the [switch] of the projection has a [case] for. *)
Definition known_property (p : property) : bool :=
  String.eqb (pid p) WYZE_API_BRIGHTNESS_PROPERTY
  || String.eqb (pid p) WYZE_API_COLOR_TEMP_PROPERTY
  || String.eqb (pid p) WYZE_API_COLOR_PROPERTY.

(** A step of the projection that leaves an observation of the accessory
    as it was, however the step completes. *)
Definition preserves {A} (f : accessory → A) (m : action ()) : Prop :=
  ∀ st, f (m st).1 = f st.

(** The property a request writes to. *)
Definition request_property (r : request) : string :=
  match r with
  | SetOn _ => WYZE_API_POWER_PROPERTY
  | SetBrightness _ => WYZE_API_BRIGHTNESS_PROPERTY
  | SetColorTemperature _ => WYZE_API_COLOR_TEMP_PROPERTY
  | SetHue _ | SetSaturation _ => WYZE_API_COLOR_PROPERTY
  end.

(** The cache after a request whose write, if any, settled with [o]. *)
Definition cache_after (r : request) (o : outcome) (c : gmap string jsval)
  : gmap string jsval :=
  match r, o with
  | SetHue v, _ => <["hue" := v]> c
  | SetSaturation v, _ => <["saturation" := v]> c
  | SetBrightness v, Resolved => <["brightness" := v]> c
  | _, _ => c
  end.

Definition is_SetHue (r : request) : bool :=
  match r with SetHue _ => true | _ => false end.

Definition is_SetSaturation (r : request) : bool :=
  match r with SetSaturation _ => true | _ => false end.

(** * Theorems *)

Lemma interval_elem (lo : Z) (n : nat) (v : Z) :
  (lo ≤ v < lo + Z.of_nat n)%Z → v ∈ interval lo n.
Proof.
  intros Hv. unfold interval. apply list_elem_of_fmap.
  exists (Z.to_nat (v - lo)). split; [lia|].
  apply elem_of_seq. lia.
Qed.

Lemma forallb_interval (f : Z → bool) (lo : Z) (n : nat) :
  forallb f (interval lo n) = true →
  ∀ v, (lo ≤ v < lo + Z.of_nat n)%Z → f v = true.
Proof.
  intros Hall v Hv.
  apply (proj1 (forallb_forall f (interval lo n)) Hall).
  apply list_elem_of_In, interval_elem, Hv.
Qed.

Section ColorTemperature.

Context `{Runtime} `{ColorConvert}.

Lemma remap_unfold (value : jsval) (min max min' max' : float) :
  _floatToRange (_rangeToFloat value min max) min' max'
  = Math.round (((ToNumber value - min) / (max - min)) * (max' - min') + min')%float.
Proof. reflexivity. Qed.

Lemma deviceToUI_exact_all :
  forallb deviceToUI_is_exact (interval 1800 4701) = true.
Proof. vm_compute. reflexivity. Qed.

Lemma uiToDevice_exact_all :
  forallb uiToDevice_is_exact (interval 153 403) = true.
Proof. vm_compute. reflexivity. Qed.

Lemma round_trip_all :
  forallb round_trip_within_one (interval 1800 4701) = true.
Proof. vm_compute. reflexivity. Qed.

(** C5: the color-temperature conversions are the linear range remap
    [round(((v - srcMin) / (srcMax - srcMin)) * (dstMax - dstMin) + dstMin)]:
    device to UI is [round(((v - 1800) / 4700) * 402 + 153)], UI to
    device is [round(((v - 153) / 402) * 4700 + 1800)]; the four
    boundary values are [153], [555], [1800] and [6500]; on every
    integer of the source range the Number computed in binary64 holds
    the integer the formula gives in exact arithmetic; and these are the
    values the code uses: the projection of a color-temperature property
    hands the first formula's value to the ColorTemperature
    characteristic, and a color-temperature write sends the second
    formula's value to ["P1502"]. *)
Theorem color_temperature_remap (v : jsval) :
  (∀ min max min' max',
      _floatToRange (_rangeToFloat v min max) min' max'
      = Math.round (((ToNumber v - min) / (max - min)) * (max' - min') + min')%float)
  ∧ deviceToUI v = Math.round (((ToNumber v - 1800) / 4700) * 402 + 153)%float
  ∧ uiToDevice v = Math.round (((ToNumber v - 153) / 402) * 4700 + 1800)%float
  ∧ deviceToUI (VNum 1800) = 153%float
  ∧ deviceToUI (VNum 6500) = 555%float
  ∧ uiToDevice (VNum 153) = 1800%float
  ∧ uiToDevice (VNum 555) = 6500%float
  ∧ (∀ n : Z, (1800 ≤ n ≤ 6500)%Z →
       Number_to_Z (deviceToUI (VNum (Number_of_Z n)))
       = Some (remap_exact n 1800 6500 153 555))
  ∧ (∀ n : Z, (153 ≤ n ≤ 555)%Z →
       Number_to_Z (uiToDevice (VNum (Number_of_Z n)))
       = Some (remap_exact n 153 555 1800 6500))
  ∧ (∀ st,
       updateColorTemp v st
       = updateValue ColorTemperature
           (VNum (Math.round (((ToNumber v - 1800) / 4700) * 402 + 153)%float)) st)
  ∧ (∀ st, dispatch (Property "P1502" v) st = (updateColorTemp v st, Normal ()))
  ∧ (∀ switch_state st,
       characteristics (project switch_state (PropertyList [Property "P1502" v]) st).1
       !! ColorTemperature
       = Some (VNum (Math.round (((ToNumber v - 1800) / 4700) * 402 + 153)%float)))
  ∧ (∀ st, handle (SetColorTemperature v) st = setColorTemperature v st)
  ∧ (∀ st, ∃ resume,
       setColorTemperature v st
       = Awaiting st "P1502"
           (VNum (Math.round (((ToNumber v - 153) / 402) * 4700 + 1800)%float)) resume)
  ∧ (∀ o st,
       (settle o (handle (SetColorTemperature v) st)).2
       = [setBufferedProperty "P1502"
            (VNum (Math.round (((ToNumber v - 153) / 402) * 4700 + 1800)%float));
          callback (report o)]).
Proof.
  do 7 (split; [reflexivity|]).
  split.
  { intros n Hn.
    assert (deviceToUI_is_exact n = true) as Hb
      by (apply (forallb_interval _ _ _ deviceToUI_exact_all); lia).
    exact (bool_decide_eq_true_1 _ Hb). }
  split.
  { intros n Hn.
    assert (uiToDevice_is_exact n = true) as Hb
      by (apply (forallb_interval _ _ _ uiToDevice_exact_all); lia).
    exact (bool_decide_eq_true_1 _ Hb). }
  split; [reflexivity|]. split; [reflexivity|].
  split.
  { intros switch_state st. cbn. apply lookup_insert_eq. }
  split; [reflexivity|].
  split.
  { intros st. eexists. reflexivity. }
  intros [|e] st; reflexivity.
Qed.

(** C6: for every integer [v] in [1800, 6500],
    [deviceToUI(uiToDevice(deviceToUI(v)))] differs from [deviceToUI(v)]
    by at most 1. *)
Theorem color_temperature_round_trip (v : Z) :
  (1800 ≤ v ≤ 6500)%Z →
  let d := deviceToUI (VNum (Number_of_Z v)) in
  (abs (deviceToUI (VNum (uiToDevice (VNum d))) - d) <=? 1)%float = true.
Proof.
  intros Hv.
  apply (forallb_interval round_trip_within_one _ _ round_trip_all). lia.
Qed.

End ColorTemperature.

Section Coalescing.

Context `{Runtime} `{ColorConvert}.

Lemma applyColorCache_idle (st : accessory) :
  cacheUpdated st = false →
  applyColorCache st = Finished (cacheUpdated_set true st) [callback None].
Proof. intros Hidle. unfold applyColorCache. by rewrite Hidle. Qed.

Lemma applyColorCache_armed (st : accessory) (hex : jsval) :
  cacheUpdated st = true →
  hexValue st = Normal hex →
  applyColorCache st = Awaiting st WYZE_API_COLOR_PROPERTY hex applyColorCache_resume.
Proof. intros Harmed Hhex. unfold applyColorCache. by rewrite Harmed, Hhex. Qed.

Lemma applyColorCache_armed_throw (st : accessory) (e : error) :
  cacheUpdated st = true →
  hexValue st = Throw e →
  applyColorCache st = Finished st [callback (Some e)].
Proof. intros Harmed Hhex. unfold applyColorCache. by rewrite Harmed, Hhex. Qed.

Lemma handle_color_request (r : request) (st : accessory) :
  is_color_request r = true → handle r st = applyColorCache (store r st).
Proof. by destruct r. Qed.

Lemma store_cacheUpdated (r : request) (st : accessory) :
  cacheUpdated (store r st) = cacheUpdated st.
Proof. by destruct r. Qed.

Lemma cache_get_set (f : string) (v : jsval) (st : accessory) :
  cache_get f (cache_set f v st) = v.
Proof. unfold cache_get, cache_set. simpl. by rewrite lookup_insert_eq. Qed.

Lemma cache_get_set_ne (f g : string) (v : jsval) (st : accessory) :
  f ≠ g → cache_get g (cache_set f v st) = cache_get g st.
Proof. intros Hne. unfold cache_get, cache_set. simpl. by rewrite lookup_insert_ne. Qed.

Lemma cache_get_cacheUpdated_set (f : string) (b : bool) (st : accessory) :
  cache_get f (cacheUpdated_set b st) = cache_get f st.
Proof. reflexivity. Qed.

(** C1: from the idle state, [setHue(120)] then [setSaturation(50)]
    issue exactly one remote write, to ["P1507"], whose value is the
    hex encoding of hue 120, saturation 50, value 100, and both
    requests are acknowledged; [setHue(120)] alone issues no write and
    is acknowledged with success. *)
Theorem hue_then_saturation_one_write (st : accessory) (hex : jsval) (o1 o2 : outcome) :
  cacheUpdated st = false →
  (rgb ← hsv_rgb (VNum 120) (VNum 50) (VNum 100); rgb_hex rgb) = Normal hex →
  (run [(SetHue (VNum 120), o1); (SetSaturation (VNum 50), o2)] st).2
  = [[callback None]; [setBufferedProperty "P1507" hex; callback (report o2)]]
  ∧ (run [(SetHue (VNum 120), o1); (SetSaturation (VNum 50), Resolved)] st).2
    = [[callback None]; [setBufferedProperty "P1507" hex; callback None]]
  ∧ (run [(SetHue (VNum 120), o1)] st).2 = [[callback None]].
Proof.
  intros Hidle Hhex.
  assert (∀ o, (run [(SetHue (VNum 120), o1); (SetSaturation (VNum 50), o)] st).2
               = [[callback None]; [setBufferedProperty "P1507" hex; callback (report o)]])
    as Hrun.
  { intros o. cbn [run handle]. unfold setHue, setSaturation.
    rewrite applyColorCache_idle by done. cbn [settle].
    erewrite applyColorCache_armed; [by destruct o | done |].
    unfold hexValue.
    rewrite cache_get_set, cache_get_set_ne, cache_get_cacheUpdated_set,
      cache_get_set by done.
    exact Hhex. }
  split; [apply Hrun|]. split; [apply (Hrun Resolved)|].
  cbn [run handle]. unfold setHue.
  by rewrite applyColorCache_idle.
Qed.

Lemma settle_color_request (r : request) (o : outcome) (st : accessory) :
  is_color_request r = true →
  settle o (handle r st)
  = if cacheUpdated st then
      match hexValue (store r st) with
      | Normal hex =>
          ((applyColorCache_resume o (store r st)).1,
           [setBufferedProperty WYZE_API_COLOR_PROPERTY hex; callback (report o)])
      | Throw e => (store r st, [callback (Some e)])
      end
    else (cacheUpdated_set true (store r st), [callback None]).
Proof.
  intros Hr. rewrite handle_color_request by done.
  unfold applyColorCache. rewrite store_cacheUpdated.
  destruct (cacheUpdated st); [|done].
  destruct (hexValue (store r st)); [|done].
  by destruct o.
Qed.

Lemma flushes_iff (r : request) (o : outcome) (st : accessory) :
  is_color_request r = true →
  flushes (settle o (handle r st)).2 = true
  ↔ cacheUpdated st = true ∧ ∃ hex, hexValue (store r st) = Normal hex.
Proof.
  intros Hr. rewrite settle_color_request by done.
  destruct (cacheUpdated st).
  - destruct (hexValue (store r st)) as [hex|e]; cbn.
    + split; [eauto|done].
    + split; [done|]. by intros [_ [hex ?]].
  - cbn. split; [done|]. by intros [? _].
Qed.

Lemma run_cons (r : request) (o : outcome) (rest : list (request * outcome))
    (st : accessory) :
  run ((r, o) :: rest) st
  = ((run rest (settle o (handle r st)).1).1,
     (settle o (handle r st)).2 :: (run rest (settle o (handle r st)).1).2).
Proof.
  cbn [run]. destruct (settle o (handle r st)) as [st1 out]. cbn.
  by destruct (run rest st1).
Qed.

Lemma run_snoc (pre : list (request * outcome)) (r : request) (o : outcome)
    (st : accessory) :
  run (pre ++ [(r, o)]) st
  = ((settle o (handle r (run pre st).1)).1,
     (run pre st).2 ++ [(settle o (handle r (run pre st).1)).2]).
Proof.
  revert st. induction pre as [|[r' o'] pre IH]; intros st.
  - rewrite app_nil_l, run_cons. reflexivity.
  - rewrite <- app_comm_cons, !run_cons, IH. reflexivity.
Qed.

Lemma since_flush_cons (n : nat) (r : request) (o : outcome)
    (rest : list (request * outcome)) (st : accessory) :
  since_flush n ((r, o) :: rest) st
  = since_flush (if completes_flush (settle o (handle r st)).2 then 0 else S n)
      rest (settle o (handle r st)).1.
Proof. cbn [since_flush]. by destruct (settle o (handle r st)). Qed.

(** The flag is set exactly when some request has been handled since
    the last completed flush. *)
Lemma cacheUpdated_since_flush (rs : list (request * outcome)) :
  ∀ (st : accessory) (n : nat),
    Forall (λ x, is_color_request x.1 = true) rs →
    cacheUpdated st = bool_decide (0 < n) →
    cacheUpdated (run rs st).1 = bool_decide (0 < since_flush n rs st).
Proof.
  induction rs as [|[r o] rs IH]; intros st n Hrs Hst; [done|].
  apply Forall_cons in Hrs as [Hr Hrs]. cbn in Hr.
  rewrite run_cons, since_flush_cons. cbn [fst].
  apply IH; [done|].
  rewrite settle_color_request by done.
  destruct (cacheUpdated st) eqn:Hflag.
  - destruct (hexValue (store r st)) as [hex|e]; cbn.
    + destruct o; cbn; [done|].
      rewrite store_cacheUpdated, Hflag. symmetry. apply bool_decide_eq_true_2. lia.
    + rewrite store_cacheUpdated, Hflag. symmetry. apply bool_decide_eq_true_2. lia.
  - cbn. symmetry. apply bool_decide_eq_true_2. lia.
Qed.

(** C2, as the code has it: along any sequence of hue and saturation
    writes on a fresh accessory, a request issues a remote color write
    exactly when at least one hue or saturation write, of either kind,
    has been handled since construction or since the last color write
    that resolved, and the conversion of the cache contents returns; the
    value written is that conversion of the cache as it is then. *)
Theorem color_write_needs_armed_flag
    (service : gmap characteristic jsval)
    (pre : list (request * outcome)) (r : request) (o : outcome) :
  Forall (λ x, is_color_request x.1 = true) (pre ++ [(r, o)]) →
  let st := (run pre (constructor service)).1 in
  (flushes (settle o (handle r st)).2 = true
   ↔ 1 ≤ since_flush 0 pre (constructor service)
     ∧ ∃ hex, hexValue (store r st) = Normal hex)
  ∧ (∀ hex, flushes (settle o (handle r st)).2 = true →
            hexValue (store r st) = Normal hex →
            (settle o (handle r st)).2
            = [setBufferedProperty "P1507" hex; callback (report o)]).
Proof.
  intros Hall st.
  apply Forall_app in Hall as [Hpre Hr].
  apply Forall_cons in Hr as [Hr _]. cbn in Hr.
  assert (cacheUpdated st = bool_decide (0 < since_flush 0 pre (constructor service))) as Hflag.
  { apply cacheUpdated_since_flush; [done|]. reflexivity. }
  split.
  - rewrite flushes_iff by done. rewrite Hflag.
    split; intros [Hn Hhex]; (split; [|done]).
    + apply bool_decide_eq_true_1 in Hn. lia.
    + apply bool_decide_eq_true_2. lia.
  - intros hex Hflush Hhex.
    apply flushes_iff in Hflush as [Harmed _]; [|done].
    rewrite settle_color_request by done.
    by rewrite Harmed, Hhex.
Qed.

(** C4, as the code has it: a hue or saturation write that arrives in
    the armed state encodes the cached hue and saturation with the value
    component 100, suspends on the buffered write of that encoding to
    ["P1507"], and calls back only on resumption; the machine goes to
    idle when the write resolves, and stays as it is, armed, when the
    write rejects. *)
Theorem armed_write_flushes (r : request) (st : accessory) (hex : jsval) :
  is_color_request r = true →
  cacheUpdated st = true →
  (rgb ← hsv_rgb (cache_get "hue" (store r st))
                 (cache_get "saturation" (store r st)) (VNum 100);
   rgb_hex rgb) = Normal hex →
  ∃ resume,
    handle r st = Awaiting (store r st) "P1507" hex resume
    ∧ (∀ st', resume Resolved st' = (cacheUpdated_set false st', [callback None]))
    ∧ (∀ e st', resume (Rejected e) st' = (st', [callback (Some e)]))
    ∧ cacheUpdated (settle Resolved (handle r st)).1 = false
    ∧ (∀ e, cacheUpdated (settle (Rejected e) (handle r st)).1 = true).
Proof.
  intros Hr Harmed Hhex. exists applyColorCache_resume.
  assert (handle r st
          = Awaiting (store r st) "P1507" hex applyColorCache_resume) as Hh.
  { rewrite handle_color_request by done.
    apply applyColorCache_armed; [by rewrite store_cacheUpdated | exact Hhex]. }
  rewrite Hh. repeat split; try done.
  intros e. cbn. by rewrite store_cacheUpdated.
Qed.


(** C3, as the code has it: for each of the five write handlers, when
    the buffered write it awaits rejects with [e], the request's callback
    is called with that [e], once, and the rejection itself changes
    nothing in the accessory, whenever the handler is resumed.  After a
    failed [setOn], [setBrightness] or [setColorTemperature] the cache
    is the cache from before the request; [setHue] and [setSaturation]
    have stored the requested value in their own field before they issue
    the write, and after the failure that field holds the new value
    while the other fields are as before. *)
Theorem rejected_write_reports_error
    (r : request) (st st0 : accessory) (pid : string) (v : jsval)
    (resume : outcome → accessory → accessory * list event) (e : error) :
  handle r st = Awaiting st0 pid v resume →
  (∀ st', resume (Rejected e) st' = (st', [callback (Some e)]))
  ∧ settle (Rejected e) (handle r st)
    = (st0, [setBufferedProperty pid v; callback (Some e)])
  ∧ st0 = store r st
  ∧ cache (settle (Rejected e) (handle r st)).1
    = match r with
      | SetHue x => <["hue" := x]> (cache st)
      | SetSaturation x => <["saturation" := x]> (cache st)
      | SetOn _ | SetBrightness _ | SetColorTemperature _ => cache st
      end
  ∧ cache st0 = cache (store r st)
  ∧ cacheUpdated st0 = cacheUpdated st
  ∧ characteristics st0 = characteristics st.
Proof.
  intros Hh.
  assert (resume = (λ o st', match o with
                             | Resolved => resume Resolved st'
                             | Rejected e' => (st', [callback (Some e')])
                             end) ∧ st0 = store r st) as [Hres ->].
  { destruct r; cbn in Hh.
    1-3: by inversion Hh.
    all: unfold setHue, setSaturation, applyColorCache in Hh;
      destruct (cacheUpdated _); [|done];
      destruct (hexValue _); [|done];
      by inversion Hh. }
  rewrite Hh. cbn [settle].
  assert (∀ st', resume (Rejected e) st' = (st', [callback (Some e)])) as Hrej.
  { intros st'. by rewrite Hres. }
  rewrite Hrej. repeat split; try done.
  - by destruct r.
  - apply store_cacheUpdated.
  - by destruct r.
Qed.

(** C8, as the code has it: the cache is empty at construction;
    [setOn] and [setColorTemperature], a [setBrightness] whose write
    rejects, and the power, brightness, color-temperature and
    unknown-property projections leave it as it is; a [setBrightness]
    whose write resolves stores the written value in its [brightness]
    field. *)
Theorem cache_frame :
  (∀ service, cache (constructor service) = ∅)
  ∧ (∀ v o st, cache (settle o (setOn v st)).1 = cache st)
  ∧ (∀ v o st, cache (settle o (setColorTemperature v st)).1 = cache st)
  ∧ (∀ v e st, cache (settle (Rejected e) (setBrightness v st)).1 = cache st)
  ∧ (∀ v st, cache (settle Resolved (setBrightness v st)).1
             = <["brightness" := v]> (cache st))
  ∧ (∀ v st, cache (updateValue On v st) = cache st)
  ∧ (∀ v st, cache (updateBrightness v st) = cache st)
  ∧ (∀ v st, cache (updateColorTemp v st) = cache st)
  ∧ (∀ p st, cache (dispatch p st).1
             = if String.eqb (pid p) WYZE_API_COLOR_PROPERTY
               then cache (updateColor (value p) st).1
               else cache st).
Proof.
  repeat split; try done.
  - by intros v [] st.
  - by intros v [] st.
  - intros p st. unfold dispatch.
    destruct (String.eqb (pid p) WYZE_API_BRIGHTNESS_PROPERTY) eqn:Hb.
    { apply String.eqb_eq in Hb. by rewrite Hb. }
    destruct (String.eqb (pid p) WYZE_API_COLOR_TEMP_PROPERTY) eqn:Ht.
    { apply String.eqb_eq in Ht. by rewrite Ht. }
    by destruct (String.eqb (pid p) WYZE_API_COLOR_PROPERTY).
Qed.

End Coalescing.

Section Projection.

Context `{Runtime} `{ColorConvert}.

(** C7: a remote color update whose value the color library decodes,
    [hex.rgb] giving [rgb] and [rgb.hsv] of that giving the array [hsl],
    updates the Hue and Saturation characteristics with the decoded hue
    and saturation, overwrites the three cache fields with the decoded
    components, and leaves [cacheUpdated] as it was; the color property
    of a snapshot is handled this way. *)
Theorem remote_color_update
    (value : jsval) (rgb : jsany) (hsl : list jsval) (st : accessory) :
  hex_rgb value = Normal rgb →
  rgb_hsv rgb = Normal (Array hsl) →
  updateColor value st
  = ({| cache := <["brightness" := element hsl 2]>
                   (<["saturation" := element hsl 1]>
                      (<["hue" := element hsl 0]> (cache st)));
        cacheUpdated := cacheUpdated st;
        characteristics := <[Saturation := element hsl 1]>
                             (<[Hue := element hsl 0]> (characteristics st)) |},
     Normal ())
  ∧ dispatch (Property "P1507" value) st = updateColor value st
  ∧ (∀ switch_state,
       project switch_state (PropertyList [Property "P1507" value]) st
       = ({| cache := <["brightness" := element hsl 2]>
                        (<["saturation" := element hsl 1]>
                           (<["hue" := element hsl 0]> (cache st)));
             cacheUpdated := cacheUpdated st;
             characteristics := <[Saturation := element hsl 1]>
                                  (<[Hue := element hsl 0]>
                                     (<[On := switch_state]> (characteristics st))) |},
          Normal ())).
Proof.
  intros Hrgb Hhsv.
  assert (∀ st0, updateColor value st0
          = ({| cache := <["brightness" := element hsl 2]>
                           (<["saturation" := element hsl 1]>
                              (<["hue" := element hsl 0]> (cache st0)));
                cacheUpdated := cacheUpdated st0;
                characteristics := <[Saturation := element hsl 1]>
                                     (<[Hue := element hsl 0]> (characteristics st0)) |},
             Normal ())) as Hupd.
  { intros st0. unfold updateColor, hslValue, mbind, action_bind, eval, exec.
    rewrite Hrgb. cbn [completion_bind]. rewrite Hhsv. reflexivity. }
  split; [apply Hupd|]. split; [reflexivity|].
  intros switch_state.
  assert (project switch_state (PropertyList [Property "P1507" value]) st
          = (let '(st1, c) := updateColor value (updateValue On switch_state st) in
             match c with
             | Normal _ => (st1, Normal ())
             | Throw e => (st1, Throw e)
             end)) as -> by reflexivity.
  rewrite Hupd. reflexivity.
Qed.

Lemma overlays_mret : overlays (mret ()).
Proof. exists ∅, (Normal ()). intros st. by rewrite (left_id_L ∅ (∪)). Qed.

Lemma overlays_throw (e : error) : overlays (eval (Throw e)).
Proof. exists ∅, (Throw e). intros st. by rewrite (left_id_L ∅ (∪)). Qed.

Lemma overlays_updateValue (c : characteristic) (v : jsval) :
  overlays (exec (updateValue c v)).
Proof.
  exists {[c := v]}, (Normal ()). intros st. cbn.
  by rewrite insert_union_singleton_l.
Qed.

Lemma overlays_cache_set (f : string) (v : jsval) : overlays (exec (cache_set f v)).
Proof. exists ∅, (Normal ()). intros st. cbn. by rewrite (left_id_L ∅ (∪)). Qed.

Lemma overlays_bind (m : action ()) (k : action ()) :
  overlays m → overlays k → overlays (m;; k).
Proof.
  intros (M & c & Hm) (K & d & Hk).
  destruct c as [[]|e].
  - exists (K ∪ M), d. intros st.
    destruct (Hm st) as [Hc Hch].
    unfold mbind, action_bind. destruct (m st) as [st1 c1]. cbn in Hc, Hch. subst c1.
    destruct (Hk st1) as [Hd Hch']. split; [done|].
    by rewrite Hch', Hch, (assoc_L (∪)).
  - exists M, (Throw e). intros st.
    destruct (Hm st) as [Hc Hch].
    unfold mbind, action_bind. destruct (m st) as [st1 c1]. cbn in Hc, Hch. by subst c1.
Qed.

Lemma overlays_eval {A} (c : completion A) (k : A → action ()) :
  (∀ a, overlays (k a)) → overlays (a ← eval c; k a).
Proof.
  intros Hk. destruct c as [a|e].
  - destruct (Hk a) as (K & d & HK). exists K, d. intros st. apply HK.
  - exists ∅, (Throw e). intros st. cbn. by rewrite (left_id_L ∅ (∪)).
Qed.

Lemma overlays_updateColor (value : jsval) : overlays (updateColor value).
Proof.
  unfold updateColor.
  apply overlays_eval; intros hsl.
  apply overlays_eval; intros h.
  apply overlays_bind; [apply overlays_updateValue|].
  apply overlays_eval; intros h'.
  apply overlays_bind; [apply overlays_cache_set|].
  apply overlays_eval; intros s.
  apply overlays_bind; [apply overlays_updateValue|].
  apply overlays_eval; intros s'.
  apply overlays_bind; [apply overlays_cache_set|].
  apply overlays_eval; intros b.
  apply overlays_cache_set.
Qed.

Lemma overlays_dispatch (p : property) : overlays (dispatch p).
Proof.
  unfold dispatch.
  destruct (String.eqb _ _); [apply overlays_updateValue|].
  destruct (String.eqb _ _); [apply overlays_updateValue|].
  destruct (String.eqb _ _); [apply overlays_updateColor|].
  apply overlays_mret.
Qed.

Lemma overlays_for_each_property (l : list property) :
  overlays (for_each_property l).
Proof.
  induction l as [|p l IH]; cbn [for_each_property].
  - apply overlays_mret.
  - apply overlays_bind; [apply overlays_dispatch | apply IH].
Qed.

Lemma overlays_project (switch_state : jsval) (r : response) :
  overlays (project switch_state r).
Proof.
  assert (project switch_state r
          = (exec (updateValue On switch_state);;
             match r with
             | PropertyList l => for_each_property l
             | Failed e => eval (Throw e)
             end)) as -> by reflexivity.
  apply overlays_bind; [apply overlays_updateValue|].
  destruct r; [apply overlays_for_each_property | apply overlays_throw].
Qed.

(** C9: running the remote-to-local projection a second time with the
    same power flag and the same property-list snapshot leaves every
    local characteristic at the value the first run gave it, and
    completes the same way. *)
Theorem projection_idempotent (switch_state : jsval) (r : response) (st : accessory) :
  let st1 := (project switch_state r st).1 in
  characteristics (project switch_state r st1).1 = characteristics st1
  ∧ (project switch_state r st1).2 = (project switch_state r st).2.
Proof.
  intros st1.
  destruct (overlays_project switch_state r) as (M & c & HM).
  destruct (HM st) as [Hc Hch], (HM st1) as [Hc1 Hch1].
  split; [|congruence].
  rewrite Hch1. subst st1. rewrite Hch.
  by rewrite (assoc_L (∪)), (idemp_L (∪)).
Qed.

End Projection.

(** * Concrete runs

    The accessory on the reference collaborators. *)
Section Concrete.

#[local] Existing Instance Reference.runtime.
#[local] Existing Instance Reference.color_convert.

Lemma hue_then_saturation_one_write_witness :
  cacheUpdated (constructor ∅) = false
  ∧ (rgb ← hsv_rgb (VNum 120) (VNum 50) (VNum 100); rgb_hex rgb) = Normal (VStr "80FF80")
  ∧ (run [(SetHue (VNum 120), Resolved); (SetSaturation (VNum 50), Resolved)] (constructor ∅)).2
    = [[callback None]; [setBufferedProperty "P1507" (VStr "80FF80"); callback None]].
Proof.
  split; [reflexivity|]. split; [reflexivity|].
  apply (hue_then_saturation_one_write (constructor ∅) (VStr "80FF80") Resolved Resolved);
    reflexivity.
Defined.

(** C2 fails as worded: two saturation writes on a fresh accessory
    flush although no hue was ever supplied, and the value written is
    the conversion of an [undefined] hue. *)
Lemma flush_without_hue :
  let rs := [(SetSaturation (VNum 50), Resolved); (SetSaturation (VNum 60), Resolved)] in
  both_supplied_at_each_flush false false rs (constructor ∅) = false
  ∧ (run rs (constructor ∅)).2
    = [[callback None]; [setBufferedProperty "P1507" VUndefined; callback None]]
  ∧ cache (run rs (constructor ∅)).1 !! "hue" = None.
Proof. vm_compute. repeat split. Qed.

Lemma color_write_needs_armed_flag_witness :
  Forall (λ x, is_color_request x.1 = true)
    ([(SetSaturation (VNum 50), Resolved)] ++ [(SetSaturation (VNum 60), Resolved)])
  ∧ (flushes (settle Resolved
                (handle (SetSaturation (VNum 60))
                   (run [(SetSaturation (VNum 50), Resolved)] (constructor ∅)).1)).2 = true
     ↔ 1 ≤ since_flush 0 [(SetSaturation (VNum 50), Resolved)] (constructor ∅)
       ∧ ∃ hex, hexValue (store (SetSaturation (VNum 60))
                            (run [(SetSaturation (VNum 50), Resolved)] (constructor ∅)).1)
                = Normal hex).
Proof.
  split; [by repeat constructor|].
  apply (color_write_needs_armed_flag ∅ [(SetSaturation (VNum 50), Resolved)]
           (SetSaturation (VNum 60)) Resolved).
  by repeat constructor.
Defined.

(** C3 fails as worded: after a [setHue] whose write rejects, the [hue]
    field of the cache is no longer what it was before the request. *)
Lemma rejected_setHue_changes_cache :
  let st := (run [(SetSaturation (VNum 50), Resolved)] (constructor ∅)).1 in
  cache st !! "hue" = None
  ∧ (settle (Rejected timeout) (handle (SetHue (VNum 120)) st)).2
    = [setBufferedProperty "P1507" (VStr "80FF80"); callback (Some timeout)]
  ∧ cache (settle (Rejected timeout) (handle (SetHue (VNum 120)) st)).1 !! "hue"
    = Some (VNum 120)
  ∧ cache (settle (Rejected timeout) (handle (SetHue (VNum 120)) st)).1 ≠ cache st.
Proof.
  intros st.
  assert (cache st !! "hue" = None) as Hbefore by (vm_compute; reflexivity).
  assert (cache (settle (Rejected timeout) (handle (SetHue (VNum 120)) st)).1 !! "hue"
          = Some (VNum 120)) as Hafter by (vm_compute; reflexivity).
  split; [exact Hbefore|]. split; [vm_compute; reflexivity|]. split; [exact Hafter|].
  intros Heq. rewrite Heq, Hbefore in Hafter. discriminate.
Qed.

Lemma rejected_write_reports_error_witness :
  let st := cacheUpdated_set true (cache_set "saturation" (VNum 50) (constructor ∅)) in
  handle (SetHue (VNum 120)) st
  = Awaiting (store (SetHue (VNum 120)) st) "P1507" (VStr "80FF80") applyColorCache_resume
  ∧ settle (Rejected timeout) (handle (SetHue (VNum 120)) st)
    = (store (SetHue (VNum 120)) st,
       [setBufferedProperty "P1507" (VStr "80FF80"); callback (Some timeout)])
  ∧ cache (settle (Rejected timeout) (handle (SetHue (VNum 120)) st)).1
    = <["hue" := VNum 120]> (cache st).
Proof.
  intros st.
  assert (handle (SetHue (VNum 120)) st
          = Awaiting (store (SetHue (VNum 120)) st) "P1507" (VStr "80FF80")
              applyColorCache_resume) as Hh by reflexivity.
  split; [exact Hh|].
  pose proof (rejected_write_reports_error (SetHue (VNum 120)) st
                (store (SetHue (VNum 120)) st) "P1507" (VStr "80FF80")
                applyColorCache_resume timeout Hh) as (_ & Hsettle & _ & Hcache & _).
  split; [exact Hsettle | exact Hcache].
Defined.

(** C4 fails as worded: the flush of an armed accessory whose write
    rejects does not end in the idle state. *)
Lemma rejected_flush_not_idle :
  let st := (run [(SetSaturation (VNum 50), Resolved)] (constructor ∅)).1 in
  cacheUpdated st = true
  ∧ settle (Rejected timeout) (handle (SetHue (VNum 120)) st)
    = (cache_set "hue" (VNum 120) st,
       [setBufferedProperty "P1507" (VStr "80FF80"); callback (Some timeout)])
  ∧ cacheUpdated (settle (Rejected timeout) (handle (SetHue (VNum 120)) st)).1 ≠ false.
Proof. vm_compute. repeat split. discriminate. Qed.

Lemma armed_write_flushes_witness :
  let st := cacheUpdated_set true (cache_set "saturation" (VNum 50) (constructor ∅)) in
  is_color_request (SetHue (VNum 120)) = true
  ∧ cacheUpdated st = true
  ∧ ∃ resume,
      handle (SetHue (VNum 120)) st
      = Awaiting (store (SetHue (VNum 120)) st) "P1507" (VStr "80FF80") resume
      ∧ (∀ st', resume Resolved st' = (cacheUpdated_set false st', [callback None]))
      ∧ (∀ e st', resume (Rejected e) st' = (st', [callback (Some e)]))
      ∧ cacheUpdated (settle Resolved (handle (SetHue (VNum 120)) st)).1 = false
      ∧ (∀ e, cacheUpdated (settle (Rejected e) (handle (SetHue (VNum 120)) st)).1 = true).
Proof.
  intros st. split; [reflexivity|]. split; [reflexivity|].
  apply (armed_write_flushes (SetHue (VNum 120)) st (VStr "80FF80")); reflexivity.
Defined.

Lemma color_temperature_remap_witness :
  (1800 ≤ 2975 ≤ 6500)%Z
  ∧ Number_to_Z (deviceToUI (VNum (Number_of_Z 2975)))
    = Some (remap_exact 2975 1800 6500 153 555)
  ∧ (153 ≤ 254 ≤ 555)%Z
  ∧ Number_to_Z (uiToDevice (VNum (Number_of_Z 254)))
    = Some (remap_exact 254 153 555 1800 6500)
  ∧ (settle Resolved (handle (SetColorTemperature (VNum 555)) (constructor ∅))).2
    = [setBufferedProperty "P1502"
         (VNum (Math.round (((ToNumber (VNum 555) - 153) / 402) * 4700 + 1800)%float));
       callback (report Resolved)].
Proof.
  destruct (color_temperature_remap (VNum 555))
    as (_ & _ & _ & _ & _ & _ & _ & Hd & Hu & _ & _ & _ & _ & _ & Hset).
  split; [lia|]. split; [apply Hd; lia|]. split; [lia|]. split; [apply Hu; lia|].
  exact (Hset Resolved (constructor ∅)).
Defined.

Lemma color_temperature_round_trip_witness :
  (1800 ≤ 2975 ≤ 6500)%Z
  ∧ (abs (deviceToUI (VNum (uiToDevice (VNum (deviceToUI (VNum (Number_of_Z 2975))))))
          - deviceToUI (VNum (Number_of_Z 2975))) <=? 1)%float = true.
Proof. split; [lia|]. apply (color_temperature_round_trip 2975). lia. Defined.

Lemma remote_color_update_witness :
  let rgb := Array [VNum 255; VNum 0; VNum 0] in
  let hsl := [VNum 0; VNum 100; VNum 100] in
  hex_rgb (VStr "ff0000") = Normal rgb
  ∧ rgb_hsv rgb = Normal (Array hsl)
  ∧ updateColor (VStr "ff0000") (constructor ∅)
    = ({| cache := <["brightness" := element hsl 2]>
                     (<["saturation" := element hsl 1]>
                        (<["hue" := element hsl 0]> (cache (constructor ∅))));
          cacheUpdated := cacheUpdated (constructor ∅);
          characteristics := <[Saturation := element hsl 1]>
                               (<[Hue := element hsl 0]>
                                  (characteristics (constructor ∅))) |},
       Normal ()).
Proof.
  intros rgb hsl.
  assert (hex_rgb (VStr "ff0000") = Normal rgb) as Hrgb by (vm_compute; reflexivity).
  assert (rgb_hsv rgb = Normal (Array hsl)) as Hhsv by (vm_compute; reflexivity).
  split; [exact Hrgb|]. split; [exact Hhsv|].
  exact (proj1 (remote_color_update (VStr "ff0000") rgb hsl (constructor ∅) Hrgb Hhsv)).
Defined.

(** On the reference conversions every string decodes: [hex.rgb] gives an
    array of three Numbers and [rgb.hsv] of it gives an array of three
    Numbers, so a color update never throws on a string. *)
Lemma reference_decodes_strings (s : string) :
  ∃ r g b h sat v,
    hex_rgb (VStr s) = Normal (Array [VNum r; VNum g; VNum b])
    ∧ rgb_hsv (Array [VNum r; VNum g; VNum b])
      = Normal (Array [VNum h; VNum sat; VNum v]).
Proof.
  cbn [hex_rgb Reference.color_convert].
  assert (∃ r g b, Reference.rounded (Reference.hex_rgb_raw s)
                   = Array [VNum r; VNum g; VNum b]) as (r & g & b & ->).
  { unfold Reference.hex_rgb_raw. destruct (Reference.hex_match s); cbn; eauto. }
  exists r, g, b.
  cbn [rgb_hsv Reference.color_convert Reference.args_of].
  unfold Reference.rgb_hsv_raw.
  match goal with |- context [if ?c then _ else _] => destruct c end;
    cbn [Reference.rounded fmap list_fmap]; eauto.
Qed.

(** C8 fails as worded: a [setBrightness] whose write resolves changes
    the cache. *)
Lemma setBrightness_changes_cache :
  cache (constructor ∅) !! "brightness" = None
  ∧ cache (settle Resolved (handle (SetBrightness (VNum 50)) (constructor ∅))).1 !! "brightness"
    = Some (VNum 50)
  ∧ cache (settle Resolved (handle (SetBrightness (VNum 50)) (constructor ∅))).1 ≠ cache (constructor ∅).
Proof.
  split; [reflexivity|]. split; [reflexivity|].
  cbn. apply insert_non_empty.
Qed.


End Concrete.

(** * Further properties of the range remap *)
Section RangeRemap.

Context `{Runtime}.

Lemma ui_round_trip_all :
  forallb ui_round_trip_exact (interval 153 403) = true.
Proof. vm_compute. reflexivity. Qed.

Lemma device_round_trip_all :
  forallb device_round_trip_within_six (interval 1800 4701) = true.
Proof. vm_compute. reflexivity. Qed.

Lemma deviceToUI_range_all :
  forallb (λ n, between 153 555 (deviceToUI_Z n)) (interval 1800 4701) = true.
Proof. vm_compute. reflexivity. Qed.

Lemma uiToDevice_range_all :
  forallb (λ n, between 1800 6500 (uiToDevice_Z n)) (interval 153 403) = true.
Proof. vm_compute. reflexivity. Qed.

Lemma deviceToUI_step_all :
  forallb (λ n, option_le (deviceToUI_Z n) (deviceToUI_Z (n + 1))) (interval 1800 4700)
  = true.
Proof. vm_compute. reflexivity. Qed.

Lemma uiToDevice_step_all :
  forallb (λ n, option_lt (uiToDevice_Z n) (uiToDevice_Z (n + 1))) (interval 153 402)
  = true.
Proof. vm_compute. reflexivity. Qed.

Lemma uiToDevice_below_all :
  forallb (λ n, between (-1000000) 1799 (uiToDevice_Z n)) (interval 0 153) = true.
Proof. vm_compute. reflexivity. Qed.

Lemma uiToDevice_above_all :
  forallb (λ n, between 6501 1000000 (uiToDevice_Z n)) (interval 556 445) = true.
Proof. vm_compute. reflexivity. Qed.

Lemma between_Some (lo hi : Z) (x : option Z) :
  between lo hi x = true → ∃ m, x = Some m ∧ (lo ≤ m ≤ hi)%Z.
Proof.
  destruct x as [m|]; [|done]. cbn. intros Hb.
  apply andb_true_iff in Hb as [Hlo Hhi]. exists m. split; [done|]. lia.
Qed.

(** X1: a color temperature the UI writes survives the trip to the device
    and back unchanged: for every integer [u] of [153, 555],
    [deviceToUI(uiToDevice(u))] is [u] again. *)
Theorem ui_device_ui_round_trip (u : Z) :
  (153 ≤ u ≤ 555)%Z →
  (deviceToUI (VNum (uiToDevice (VNum (Number_of_Z u)))) =? Number_of_Z u)%float = true
  ∧ Number_to_Z (deviceToUI (VNum (uiToDevice (VNum (Number_of_Z u))))) = Some u.
Proof.
  intros Hu.
  assert (ui_round_trip_exact u = true) as Hb
    by (apply (forallb_interval _ _ _ ui_round_trip_all); lia).
  apply andb_true_iff in Hb as [Heq Hz].
  split; [exact Heq | exact (bool_decide_eq_true_1 _ Hz)].
Qed.

(** X2: the other way round the trip loses information, within a bound:
    for every integer [v] of [1800, 6500], [uiToDevice(deviceToUI(v))]
    differs from [v] by at most 6. *)
Theorem device_ui_device_within_six (v : Z) :
  (1800 ≤ v ≤ 6500)%Z →
  (abs (uiToDevice (VNum (deviceToUI (VNum (Number_of_Z v)))) - Number_of_Z v) <=? 6)%float
  = true.
Proof.
  intros Hv.
  apply (forallb_interval device_round_trip_within_six _ _ device_round_trip_all). lia.
Qed.

(** X3: in-range inputs give in-range outputs: an integer of
    [1800, 6500] is converted to an integer of [153, 555], and an integer
    of [153, 555] to an integer of [1800, 6500]. *)
Theorem remap_stays_in_range :
  (∀ v : Z, (1800 ≤ v ≤ 6500)%Z → ∃ m, deviceToUI_Z v = Some m ∧ (153 ≤ m ≤ 555)%Z)
  ∧ (∀ u : Z, (153 ≤ u ≤ 555)%Z → ∃ m, uiToDevice_Z u = Some m ∧ (1800 ≤ m ≤ 6500)%Z).
Proof.
  split.
  - intros v Hv. apply between_Some.
    apply (forallb_interval _ _ _ deviceToUI_range_all). lia.
  - intros u Hu. apply between_Some.
    apply (forallb_interval _ _ _ uiToDevice_range_all). lia.
Qed.

Lemma deviceToUI_mono_steps (k : nat) :
  ∀ a : Z, (1800 ≤ a)%Z → (a + Z.of_nat k ≤ 6500)%Z →
           option_le (deviceToUI_Z a) (deviceToUI_Z (a + Z.of_nat k)) = true.
Proof.
  induction k as [|k IH]; intros a Ha Hk.
  - rewrite Z.add_0_r.
    destruct (between_Some 153 555 (deviceToUI_Z a)) as (m & -> & _).
    { apply (forallb_interval _ _ _ deviceToUI_range_all). lia. }
    cbn. lia.
  - assert (option_le (deviceToUI_Z (a + Z.of_nat k)) (deviceToUI_Z (a + Z.of_nat k + 1))
            = true) as Hstep.
    { apply (forallb_interval
               (λ n, option_le (deviceToUI_Z n) (deviceToUI_Z (n + 1))) _ _
               deviceToUI_step_all). lia. }
    specialize (IH a Ha ltac:(lia)).
    replace (a + Z.of_nat (S k))%Z with (a + Z.of_nat k + 1)%Z by lia.
    destruct (deviceToUI_Z a), (deviceToUI_Z (a + Z.of_nat k)),
      (deviceToUI_Z (a + Z.of_nat k + 1)); cbn in *; try done. lia.
Qed.

Lemma uiToDevice_mono_steps (k : nat) :
  ∀ a : Z, (153 ≤ a)%Z → (a + Z.of_nat (S k) ≤ 555)%Z →
           option_lt (uiToDevice_Z a) (uiToDevice_Z (a + Z.of_nat (S k))) = true.
Proof.
  assert (∀ n, (153 ≤ n < 555)%Z →
               option_lt (uiToDevice_Z n) (uiToDevice_Z (n + 1)) = true) as Hstep.
  { intros n Hn.
    apply (forallb_interval
             (λ n, option_lt (uiToDevice_Z n) (uiToDevice_Z (n + 1))) _ _
             uiToDevice_step_all). lia. }
  induction k as [|k IH]; intros a Ha Hk.
  - apply Hstep. lia.
  - specialize (IH a Ha ltac:(lia)).
    specialize (Hstep (a + Z.of_nat (S k))%Z ltac:(lia)).
    replace (a + Z.of_nat (S (S k)))%Z with (a + Z.of_nat (S k) + 1)%Z by lia.
    destruct (uiToDevice_Z a), (uiToDevice_Z (a + Z.of_nat (S k))),
      (uiToDevice_Z (a + Z.of_nat (S k) + 1)); cbn in *; try done. lia.
Qed.

(** X4: both conversions keep the order of in-range integers: a larger
    device value never gives a smaller UI value, and a larger UI value
    always gives a larger device value, so that distinct UI values are
    never written to the device as the same value. *)
Theorem remap_monotone :
  (∀ a b : Z, (1800 ≤ a)%Z → (a ≤ b)%Z → (b ≤ 6500)%Z →
     ∃ x y, deviceToUI_Z a = Some x ∧ deviceToUI_Z b = Some y ∧ (x ≤ y)%Z)
  ∧ (∀ a b : Z, (153 ≤ a)%Z → (a < b)%Z → (b ≤ 555)%Z →
       ∃ x y, uiToDevice_Z a = Some x ∧ uiToDevice_Z b = Some y ∧ (x < y)%Z).
Proof.
  split.
  - intros a b Ha Hab Hb.
    pose proof (deviceToUI_mono_steps (Z.to_nat (b - a)) a Ha ltac:(lia)) as Hle.
    replace (a + Z.of_nat (Z.to_nat (b - a)))%Z with b in Hle by lia.
    destruct (deviceToUI_Z a) as [x|], (deviceToUI_Z b) as [y|]; try done.
    exists x, y. cbn in Hle. repeat split; lia.
  - intros a b Ha Hab Hb.
    pose proof (uiToDevice_mono_steps (Z.to_nat (b - a - 1)) a Ha ltac:(lia)) as Hlt.
    replace (a + Z.of_nat (S (Z.to_nat (b - a - 1))))%Z with b in Hlt by lia.
    destruct (uiToDevice_Z a) as [x|], (uiToDevice_Z b) as [y|]; try done.
    exists x, y. cbn in Hlt. repeat split; lia.
Qed.

(** X5: nothing clamps a UI value outside [153, 555]: every integer of
    [0, 152] is converted to a device value below 1800, and every integer
    of [556, 1000] to a device value above 6500. *)
Theorem uiToDevice_does_not_clamp :
  (∀ u : Z, (0 ≤ u ≤ 152)%Z → ∃ m, uiToDevice_Z u = Some m ∧ (m < 1800)%Z)
  ∧ (∀ u : Z, (556 ≤ u ≤ 1000)%Z → ∃ m, uiToDevice_Z u = Some m ∧ (6500 < m)%Z).
Proof.
  split.
  - intros u Hu.
    destruct (between_Some (-1000000) 1799 (uiToDevice_Z u)) as (m & Hm & Hr).
    { apply (forallb_interval _ _ _ uiToDevice_below_all). lia. }
    exists m. split; [done|lia].
  - intros u Hu.
    destruct (between_Some 6501 1000000 (uiToDevice_Z u)) as (m & Hm & Hr).
    { apply (forallb_interval _ _ _ uiToDevice_above_all). lia. }
    exists m. split; [done|lia].
Qed.

(** X6: a value that does not convert to a Number is not rejected: both
    conversions give NaN, [setColorTemperature] writes NaN to the device
    and [updateColorTemp] hands NaN to the ColorTemperature
    characteristic. *)
Theorem not_a_number_goes_through (value : jsval) (st : accessory) :
  ToNumber value = nan →
  deviceToUI value = nan
  ∧ uiToDevice value = nan
  ∧ (∃ resume, setColorTemperature value st = Awaiting st "P1502" (VNum nan) resume)
  ∧ characteristics (updateColorTemp value st) !! ColorTemperature = Some (VNum nan).
Proof.
  intros Hnan.
  assert (deviceToUI value = nan) as Hd.
  { unfold deviceToUI, _rangeToFloat. rewrite Hnan. reflexivity. }
  assert (uiToDevice value = nan) as Hu.
  { unfold uiToDevice, _rangeToFloat. rewrite Hnan. reflexivity. }
  repeat split; [done..| |].
  - unfold setColorTemperature. rewrite Hu. eauto.
  - unfold updateColorTemp, updateValue. cbn. rewrite Hd. apply lookup_insert_eq.
Qed.

End RangeRemap.

(** * Further properties of the write handlers *)
Section Handlers.

Context `{Runtime} `{ColorConvert}.

(** X7: every request is answered exactly once, and last: a handler
    either issues one write to the property of its request and then calls
    back with the outcome of that write, or, for a hue or saturation
    request only, issues no write and calls back once. *)
Theorem handler_settles_once (r : request) (o : outcome) (st : accessory) :
  (∃ v, (settle o (handle r st)).2
        = [setBufferedProperty (request_property r) v; callback (report o)])
  ∨ (is_color_request r = true ∧ ∃ err, (settle o (handle r st)).2 = [callback err]).
Proof.
  destruct (is_color_request r) eqn:Hr.
  - rewrite settle_color_request by done.
    assert (request_property r = WYZE_API_COLOR_PROPERTY) as -> by by destruct r.
    destruct (cacheUpdated st); [|right; eauto].
    destruct (hexValue (store r st)) as [hex|e]; [left; eauto | right; eauto].
  - left. destruct r; try done; destruct o; cbn; eauto.
Qed.

(** X8: a request changes at most its own field of the cache, whatever
    the state of the coalescing machine and whatever the conversion does:
    a hue or saturation request stores its value even when the write
    fails or is never issued, a brightness request stores its value only
    when its write resolves, the other requests store nothing. *)
Theorem cache_after_request (r : request) (o : outcome) (st : accessory) :
  cache (settle o (handle r st)).1 = cache_after r o (cache st).
Proof.
  destruct (is_color_request r) eqn:Hr.
  - rewrite settle_color_request by done.
    destruct (cacheUpdated st).
    + destruct (hexValue (store r st)); destruct r, o; done.
    + destruct r, o; done.
  - destruct r, o; done.
Qed.

Lemma run_app_fst (a b : list (request * outcome)) (st : accessory) :
  (run (a ++ b) st).1 = (run b (run a st).1).1.
Proof.
  revert st. induction a as [|[r o] a IH]; intros st; [done|].
  rewrite <- app_comm_cons, !run_cons. cbn [fst]. apply IH.
Qed.

Lemma run_keeps_field (f : string) (sets : request → bool)
    (rs : list (request * outcome)) :
  (∀ r o c, sets r = false → cache_after r o c !! f = c !! f) →
  ∀ st, Forall (λ x, sets x.1 = false) rs →
        cache (run rs st).1 !! f = cache st !! f.
Proof.
  intros Hkeep. induction rs as [|[r o] rs IH]; intros st Hrs; [done|].
  apply Forall_cons in Hrs as [Hr Hrs].
  rewrite run_cons. cbn [fst].
  rewrite IH by done. rewrite cache_after_request. by apply Hkeep.
Qed.

(** X9: the cache holds the hue and the saturation requested last: after
    any run of requests, succeeded or failed, flushed or not, [cache.hue]
    is the value of the last hue request and [cache.saturation] the value
    of the last saturation request. *)
Theorem cache_holds_last_request
    (pre post : list (request * outcome)) (v : jsval) (o : outcome) (st : accessory) :
  (Forall (λ x, is_SetHue x.1 = false) post →
   cache (run (pre ++ (SetHue v, o) :: post) st).1 !! "hue" = Some v)
  ∧ (Forall (λ x, is_SetSaturation x.1 = false) post →
     cache (run (pre ++ (SetSaturation v, o) :: post) st).1 !! "saturation" = Some v).
Proof.
  split; intros Hpost; rewrite run_app_fst, run_cons; cbn [fst].
  - rewrite (run_keeps_field "hue" is_SetHue) by
      (done || by intros [] [] c Hs; cbn in *; rewrite ?lookup_insert_ne).
    rewrite cache_after_request. cbn. apply lookup_insert_eq.
  - rewrite (run_keeps_field "saturation" is_SetSaturation) by
      (done || by intros [] [] c Hs; cbn in *; rewrite ?lookup_insert_ne).
    rewrite cache_after_request. cbn. apply lookup_insert_eq.
Qed.

Lemma settle_cacheUpdated (r : request) (o : outcome) (st : accessory) :
  is_color_request r = false →
  cacheUpdated (settle o (handle r st)).1 = cacheUpdated st.
Proof. intros Hr. destruct r, o; done. Qed.

Lemma run_other_requests (rs : list (request * outcome)) :
  ∀ st, Forall (λ x, is_color_request x.1 = false) rs →
        cacheUpdated (run rs st).1 = cacheUpdated st
        ∧ cache (run rs st).1 !! "hue" = cache st !! "hue"
        ∧ cache (run rs st).1 !! "saturation" = cache st !! "saturation".
Proof.
  induction rs as [|[r o] rs IH]; intros st Hrs; [done|].
  apply Forall_cons in Hrs as [Hr Hrs]. cbn in Hr.
  rewrite run_cons. cbn [fst].
  destruct (IH (settle o (handle r st)).1 Hrs) as (-> & -> & ->).
  rewrite settle_cacheUpdated, cache_after_request by done.
  destruct r; try done; destruct o; cbn; by rewrite ?lookup_insert_ne.
Qed.

Lemma run_app_snd (a b : list (request * outcome)) (st : accessory) :
  (run (a ++ b) st).2 = (run a st).2 ++ (run b (run a st).1).2.
Proof.
  revert st. induction a as [|[r o] a IH]; intros st; [done|].
  rewrite <- app_comm_cons, !run_cons. cbn [fst snd]. by rewrite IH.
Qed.

(** X10: power, brightness and color-temperature requests between the
    two halves of a color pick do not disturb the coalescing: from the
    idle state, [setHue(h)], then any such requests, then
    [setSaturation(s)] gives no color write before the last request, and
    the last request writes the encoding of [h] and [s]. *)
Theorem other_requests_do_not_disturb
    (st : accessory) (h s hex : jsval) (o1 o : outcome)
    (mid : list (request * outcome)) :
  cacheUpdated st = false →
  Forall (λ x, is_color_request x.1 = false) mid →
  (rgb ← hsv_rgb h s (VNum 100); rgb_hex rgb) = Normal hex →
  let st1 := (settle o1 (handle (SetHue h) st)).1 in
  (run ((SetHue h, o1) :: mid ++ [(SetSaturation s, o)]) st).2
  = [callback None] :: (run mid st1).2
    ++ [[setBufferedProperty "P1507" hex; callback (report o)]]
  ∧ flush_count ([callback None] :: (run mid st1).2) = 0.
Proof.
  intros Hidle Hmid Hhex st1.
  assert (settle o1 (handle (SetHue h) st)
          = (cacheUpdated_set true (cache_set "hue" h st), [callback None])) as Hfirst.
  { rewrite settle_color_request by done. by rewrite Hidle. }
  subst st1. rewrite run_cons, run_app_snd, Hfirst. cbn [fst snd].
  set (st1 := cacheUpdated_set true (cache_set "hue" h st)).
  destruct (run_other_requests mid st1 Hmid) as (Hflag & Hhue & Hsat).
  split.
  - do 2 f_equal. rewrite run_cons. cbn [run snd]. f_equal.
    rewrite settle_color_request by done.
    rewrite Hflag. cbn [st1 cacheUpdated cacheUpdated_set].
    assert (hexValue (store (SetSaturation s) (run mid st1).1) = Normal hex) as ->; [|done].
    unfold hexValue, cache_get. cbn [store cache_set cache].
    rewrite lookup_insert_ne, lookup_insert_eq by done.
    rewrite Hhue. cbn. rewrite lookup_insert_eq. exact Hhex.
  - unfold flush_count. cbn.
    assert (∀ rs st0, Forall (λ x, is_color_request x.1 = false) rs →
                      List.filter flushes (run rs st0).2 = []) as Hnone.
    { clear. induction rs as [|[r o] rs IH]; intros st0 Hrs; [done|].
      apply Forall_cons in Hrs as [Hr Hrs]. rewrite run_cons. cbn [snd List.filter].
      rewrite IH by done. by destruct r, o. }
    by rewrite Hnone.
Qed.

End Handlers.

(** * Further properties of the coalescing machine *)
Section Machine.

Context `{Runtime} `{ColorConvert}.

Lemma flush_count_cons (out : list event) (outs : list (list event)) :
  flush_count (out :: outs) = (if flushes out then 1 else 0) + flush_count outs.
Proof. unfold flush_count. cbn. by destruct (flushes out). Qed.

Lemma half_step (n : nat) : S (n `div` 2) = S (S n) `div` 2.
Proof.
  replace (S (S n)) with (n + 1 * 2) by lia.
  rewrite Nat.div_add by done. lia.
Qed.

Lemma hexValue_total (st : accessory) :
  (∀ h s, ∃ hex, (rgb ← hsv_rgb h s (VNum 100); rgb_hex rgb) = Normal hex) →
  ∃ hex, hexValue st = Normal hex.
Proof. intros Htotal. apply Htotal. Qed.

Lemma resolved_run (rs : list (request * outcome)) :
  (∀ h s, ∃ hex, (rgb ← hsv_rgb h s (VNum 100); rgb_hex rgb) = Normal hex) →
  ∀ st, Forall (λ x, is_color_request x.1 = true ∧ x.2 = Resolved) rs →
        flush_count (run rs st).2
        = (length rs + (if cacheUpdated st then 1 else 0)) `div` 2
        ∧ cacheUpdated (run rs st).1 = xorb (cacheUpdated st) (Nat.odd (length rs)).
Proof.
  intros Htotal. induction rs as [|[r o] rs IH]; intros st Hrs.
  - cbn. split; [by destruct (cacheUpdated st) | by rewrite xorb_false_r].
  - apply Forall_cons in Hrs as [[Hr Ho] Hrs]. cbn in Hr, Ho. subst o.
    rewrite run_cons. cbn [fst snd]. rewrite flush_count_cons.
    destruct (IH (settle Resolved (handle r st)).1 Hrs) as [-> ->].
    rewrite settle_color_request by done.
    cbn [length]. rewrite Nat.odd_succ, <- Nat.negb_odd.
    destruct (cacheUpdated st).
    + destruct (hexValue_total (store r st) Htotal) as [hex ->]. cbn -[Nat.div Nat.odd].
      split; [|by destruct (Nat.odd (length rs))].
      rewrite Nat.add_0_r.
      replace (S (length rs + 1)) with (S (S (length rs))) by lia.
      apply half_step.
    + cbn -[Nat.div Nat.odd]. split; [|by destruct (Nat.odd (length rs))].
      f_equal. lia.
Qed.

(** X11: when the conversion returns and every write resolves, hue and
    saturation requests are flushed in pairs: a run of [n] such requests
    from the idle state issues exactly [n / 2] color writes, and leaves
    the machine armed exactly when [n] is odd. *)
Theorem requests_flush_in_pairs (rs : list (request * outcome)) (st : accessory) :
  (∀ h s, ∃ hex, (rgb ← hsv_rgb h s (VNum 100); rgb_hex rgb) = Normal hex) →
  Forall (λ x, is_color_request x.1 = true ∧ x.2 = Resolved) rs →
  cacheUpdated st = false →
  flush_count (run rs st).2 = length rs `div` 2
  ∧ cacheUpdated (run rs st).1 = Nat.odd (length rs).
Proof.
  intros Htotal Hrs Hidle.
  destruct (resolved_run rs Htotal st Hrs) as [-> ->].
  rewrite Hidle. by rewrite Nat.add_0_r.
Qed.

(** X12: while the color write keeps failing, the machine stays armed
    and every hue or saturation request tries again: a run of requests
    whose writes all reject, from the armed state, issues one color write
    per request and ends armed. *)
Theorem rejected_requests_all_retry (rs : list (request * outcome)) (st : accessory) :
  (∀ h s, ∃ hex, (rgb ← hsv_rgb h s (VNum 100); rgb_hex rgb) = Normal hex) →
  Forall (λ x, is_color_request x.1 = true ∧ ∃ e, x.2 = Rejected e) rs →
  cacheUpdated st = true →
  flush_count (run rs st).2 = length rs
  ∧ cacheUpdated (run rs st).1 = true.
Proof.
  intros Htotal. revert st.
  induction rs as [|[r o] rs IH]; intros st Hrs Harmed; [done|].
  apply Forall_cons in Hrs as [[Hr [e Ho]] Hrs]. cbn in Hr, Ho. subst o.
  rewrite run_cons. cbn [fst snd]. rewrite flush_count_cons.
  assert (settle (Rejected e) (handle r st)
          = (store r st,
             [setBufferedProperty WYZE_API_COLOR_PROPERTY
                (match hexValue (store r st) with Normal x => x | Throw _ => VUndefined end);
              callback (Some e)])) as ->.
  { rewrite settle_color_request by done. rewrite Harmed.
    by destruct (hexValue_total (store r st) Htotal) as [hex ->]. }
  cbn [fst snd].
  destruct (IH (store r st) Hrs) as [-> ->]; [by rewrite store_cacheUpdated|].
  done.
Qed.

(** X13: a remote color update that arrives between the two halves of a
    color pick replaces the hue the UI has just set: after [setHue(h)]
    from the idle state and a color update that decodes to the array
    [hsl], [setSaturation(s)] writes the encoding of the remote hue
    [hsl[0]] with [s], whatever [h] was. *)
Theorem remote_update_replaces_pending_hue
    (st : accessory) (h s value hex : jsval) (hsl : list jsval) (o1 o : outcome) :
  cacheUpdated st = false →
  hslValue value = Normal (Array hsl) →
  (rgb ← hsv_rgb (element hsl 0) s (VNum 100); rgb_hex rgb) = Normal hex →
  let st1 := (settle o1 (handle (SetHue h) st)).1 in
  let st2 := (updateColor value st1).1 in
  (settle o (handle (SetSaturation s) st2)).2
  = [setBufferedProperty "P1507" hex; callback (report o)].
Proof.
  intros Hidle Hdec Hhex st1 st2.
  assert (st2 = {| cache := <["brightness" := element hsl 2]>
                              (<["saturation" := element hsl 1]>
                                 (<["hue" := element hsl 0]> (cache st1)));
                   cacheUpdated := cacheUpdated st1;
                   characteristics := <[Saturation := element hsl 1]>
                                        (<[Hue := element hsl 0]> (characteristics st1)) |})
    as Hst2.
  { subst st2. unfold updateColor, mbind, action_bind, eval, exec. by rewrite Hdec. }
  assert (cacheUpdated st2 = true) as Harmed.
  { rewrite Hst2. cbn. subst st1. rewrite settle_color_request by done. by rewrite Hidle. }
  assert (hexValue (store (SetSaturation s) st2) = Normal hex) as Hflush.
  { rewrite Hst2. unfold hexValue, cache_get. cbn [store cache_set cache].
    rewrite lookup_insert_eq.
    do 3 rewrite lookup_insert_ne by done. rewrite lookup_insert_eq.
    exact Hhex. }
  rewrite settle_color_request by done. by rewrite Harmed, Hflush.
Qed.

(** X14: nothing keeps two flushes apart: when a hue or saturation
    request arrives in the armed state while the write of the previous
    one is still awaited, it issues a color write of its own; had the
    previous write resolved first, the same request would only have
    armed the machine. *)
Theorem overlapping_requests_both_flush
    (r1 r2 : request) (st : accessory) (hex1 hex2 : jsval) :
  is_color_request r1 = true →
  is_color_request r2 = true →
  cacheUpdated st = true →
  hexValue (store r1 st) = Normal hex1 →
  hexValue (store r2 (store r1 st)) = Normal hex2 →
  handle r1 st = Awaiting (store r1 st) "P1507" hex1 applyColorCache_resume
  ∧ handle r2 (store r1 st)
    = Awaiting (store r2 (store r1 st)) "P1507" hex2 applyColorCache_resume
  ∧ handle r2 (applyColorCache_resume Resolved (store r1 st)).1
    = Finished
        (cacheUpdated_set true (store r2 (cacheUpdated_set false (store r1 st))))
        [callback None].
Proof.
  intros Hr1 Hr2 Harmed Hhex1 Hhex2.
  rewrite !handle_color_request by done.
  split; [|split].
  - apply applyColorCache_armed; [by rewrite store_cacheUpdated | done].
  - apply applyColorCache_armed; [by rewrite !store_cacheUpdated | done].
  - cbn [applyColorCache_resume fst].
    apply applyColorCache_idle. by rewrite store_cacheUpdated.
Qed.

(** X15: a write that resolves late disarms a machine that a newer
    request has armed in the meantime: when a hue or saturation request
    arms the idle machine and an older color write then resolves, the
    next hue or saturation request arms again instead of flushing, so
    that neither of the two requests is written. *)
Theorem late_resolution_disarms (r3 r4 : request) (st : accessory) :
  is_color_request r3 = true →
  is_color_request r4 = true →
  cacheUpdated st = false →
  let s4 := cacheUpdated_set true (store r3 st) in
  let s5 := (applyColorCache_resume Resolved s4).1 in
  handle r3 st = Finished s4 [callback None]
  ∧ cacheUpdated s5 = false
  ∧ handle r4 s5 = Finished (cacheUpdated_set true (store r4 s5)) [callback None].
Proof.
  intros Hr3 Hr4 Hidle s4 s5.
  rewrite !handle_color_request by done.
  split; [|split; [done|]].
  - apply applyColorCache_idle. by rewrite store_cacheUpdated.
  - apply applyColorCache_idle. by rewrite store_cacheUpdated.
Qed.

End Machine.

(** * Further properties of the projection *)
Section Snapshot.

Context `{Runtime} `{ColorConvert}.

Lemma preserves_mret {A} (f : accessory → A) : preserves f (mret ()).
Proof. by intros st. Qed.

Lemma preserves_exec {A} (f : accessory → A) (g : accessory → accessory) :
  (∀ st, f (g st) = f st) → preserves f (exec g).
Proof. intros Hg st. apply Hg. Qed.

Lemma preserves_bind {A} (f : accessory → A) (m k : action ()) :
  preserves f m → preserves f k → preserves f (m;; k).
Proof.
  intros Hm Hk st. unfold mbind, action_bind.
  specialize (Hm st). destruct (m st) as [st1 [[]|e]]; cbn in *; [|done].
  by rewrite Hk.
Qed.

Lemma preserves_eval {A B} (f : accessory → A) (c : completion B) (k : B → action ()) :
  (∀ b, preserves f (k b)) → preserves f (b ← eval c; k b).
Proof.
  intros Hk st. unfold mbind, action_bind, eval.
  destruct c as [b|e]; [apply Hk | done].
Qed.

Lemma preserves_updateColor {A} (f : accessory → A) (value : jsval) :
  (∀ c v st, c ≠ On → f (updateValue c v st) = f st) →
  (∀ k v st, f (cache_set k v st) = f st) →
  preserves f (updateColor value).
Proof.
  intros Hch Hcache. unfold updateColor.
  repeat first
    [ apply preserves_eval; intros ?
    | apply preserves_bind
    | apply preserves_exec; intros ?; (apply Hcache || by apply Hch) ].
Qed.

Lemma preserves_dispatch {A} (f : accessory → A) (p : property) :
  (∀ c v st, c ≠ On → f (updateValue c v st) = f st) →
  (∀ k v st, f (cache_set k v st) = f st) →
  preserves f (dispatch p).
Proof.
  intros Hch Hcache. unfold dispatch.
  destruct (String.eqb _ _); [apply preserves_exec; intros ?; by apply Hch|].
  destruct (String.eqb _ _); [apply preserves_exec; intros ?; by apply Hch|].
  destruct (String.eqb _ _); [by apply preserves_updateColor|].
  apply preserves_mret.
Qed.

Lemma preserves_for_each_property {A} (f : accessory → A) (l : list property) :
  (∀ p, p ∈ l → preserves f (dispatch p)) → preserves f (for_each_property l).
Proof.
  induction l as [|p l IH]; intros Hl; cbn [for_each_property].
  - apply preserves_mret.
  - apply preserves_bind; [apply Hl; left | apply IH; intros q Hq; apply Hl; by right].
Qed.

Lemma project_unfold (switch_state : jsval) (r : response) :
  project switch_state r
  = (exec (updateValue On switch_state);;
     match r with
     | PropertyList l => for_each_property l
     | Failed e => eval (Throw e)
     end).
Proof. reflexivity. Qed.

(** X16: only hue and saturation requests move the coalescing machine:
    a power, brightness or color-temperature request leaves
    [cacheUpdated] as it is, and so does a whole projection, whatever the
    snapshot holds and however the projection completes. *)
Theorem only_color_requests_move_the_machine :
  (∀ r o st, is_color_request r = false →
             cacheUpdated (settle o (handle r st)).1 = cacheUpdated st)
  ∧ (∀ switch_state r st,
       cacheUpdated (project switch_state r st).1 = cacheUpdated st).
Proof.
  split.
  - intros r o st Hr. destruct r, o; done.
  - intros switch_state r.
    change (preserves cacheUpdated (project switch_state r)).
    rewrite project_unfold.
    apply preserves_bind; [by apply preserves_exec|].
    destruct r as [l|e]; [|by intros st].
    apply preserves_for_each_property. intros p _.
    by apply preserves_dispatch.
Qed.

(** X17: the projection always sets On to the power flag of the device,
    and nothing after that touches it: this holds when the property list
    cannot be fetched and when a color conversion throws half-way. *)
Theorem projection_sets_On (switch_state : jsval) (r : response) (st : accessory) :
  characteristics (project switch_state r st).1 !! On = Some switch_state.
Proof.
  rewrite project_unfold. unfold mbind, action_bind, exec at 1.
  assert (preserves (λ st, characteristics st !! On)
            match r with
            | PropertyList l => for_each_property l
            | Failed e => eval (Throw e)
            end) as Hkeep.
  { destruct r as [l|e]; [|by intros ?].
    apply preserves_for_each_property. intros p _.
    apply preserves_dispatch; [|done].
    intros c v st0 Hc. cbn. by rewrite lookup_insert_ne. }
  rewrite Hkeep. cbn. apply lookup_insert_eq.
Qed.

(** X18: properties the [switch] has no [case] for are skipped: a
    snapshot and the same snapshot without its unknown properties are
    projected alike, state and completion. *)
Theorem unknown_properties_are_skipped (l : list property) (st : accessory) :
  for_each_property l st = for_each_property (List.filter known_property l) st.
Proof.
  revert st. induction l as [|p l IH]; intros st; [done|].
  cbn [List.filter]. destruct (known_property p) eqn:Hk.
  - cbn [for_each_property]. unfold mbind, action_bind.
    destruct (dispatch p st) as [st1 [[]|e]]; [apply IH | done].
  - cbn [for_each_property]. unfold mbind, action_bind.
    assert (dispatch p st = (st, Normal ())) as ->; [|apply IH].
    unfold known_property in Hk. unfold dispatch.
    destruct (String.eqb (pid p) WYZE_API_BRIGHTNESS_PROPERTY); [done|].
    destruct (String.eqb (pid p) WYZE_API_COLOR_TEMP_PROPERTY); [done|].
    by destruct (String.eqb (pid p) WYZE_API_COLOR_PROPERTY).
Qed.

(** X19: a color update is all or nothing: when [updateColor] throws,
    the accessory is as it was before the call; when it returns, Hue,
    Saturation and the three cache fields have all been written. *)
Theorem updateColor_all_or_nothing (value : jsval) (st : accessory) :
  match (updateColor value st).2 with
  | Throw _ => (updateColor value st).1 = st
  | Normal _ =>
      ∃ h s b,
        (updateColor value st).1
        = {| cache := <["brightness" := b]>
                        (<["saturation" := s]> (<["hue" := h]> (cache st)));
             cacheUpdated := cacheUpdated st;
             characteristics := <[Saturation := s]>
                                  (<[Hue := h]> (characteristics st)) |}
  end.
Proof.
  unfold updateColor, mbind, action_bind, eval, exec.
  destruct (hslValue value) as [[a|v]|e]; [| |done].
  - cbn. eauto.
  - destruct v; cbn; eauto.
Qed.

(** X20: a color property whose conversion throws ends the projection
    there: the properties before it stay applied, the properties after it
    are not looked at, and the error is the completion of the loop. *)
Theorem throwing_color_property_ends_the_loop
    (before after : list property) (p : property) (e : error) (st : accessory) :
  (for_each_property before st).2 = Normal () →
  (dispatch p (for_each_property before st).1).2 = Throw e →
  for_each_property (before ++ p :: after) st
  = ((for_each_property before st).1, Throw e).
Proof.
  revert st. induction before as [|q before IH]; intros st Hbefore Hp.
  - cbn [app for_each_property] in *. unfold mbind, action_bind.
    cbn in Hp. destruct (dispatch p st) as [st1 c] eqn:Hd. cbn in Hp. subst c.
    f_equal.
    unfold dispatch in Hd.
    destruct (String.eqb _ _); [by inversion Hd|].
    destruct (String.eqb _ _); [by inversion Hd|].
    destruct (String.eqb _ _); [|by inversion Hd].
    pose proof (updateColor_all_or_nothing (value p) st) as Hall.
    rewrite Hd in Hall. cbn in Hall. done.
  - rewrite <- app_comm_cons. cbn [for_each_property] in *.
    unfold mbind, action_bind in *.
    destruct (dispatch q st) as [st1 [[]|e']]; [|done].
    by apply IH.
Qed.

(** X21: a snapshot without a color property cannot fail and stays away
    from the color state: its projection completes normally and leaves
    the cache and the Hue and Saturation characteristics as they were. *)
Theorem snapshot_without_color (switch_state : jsval) (l : list property) (st : accessory) :
  Forall (λ p, String.eqb (pid p) WYZE_API_COLOR_PROPERTY = false) l →
  (project switch_state (PropertyList l) st).2 = Normal ()
  ∧ cache (project switch_state (PropertyList l) st).1 = cache st
  ∧ characteristics (project switch_state (PropertyList l) st).1 !! Hue
    = characteristics st !! Hue
  ∧ characteristics (project switch_state (PropertyList l) st).1 !! Saturation
    = characteristics st !! Saturation.
Proof.
  intros Hl.
  assert (∀ st0, (for_each_property l st0).2 = Normal ()
                 ∧ cache (for_each_property l st0).1 = cache st0
                 ∧ characteristics (for_each_property l st0).1 !! Hue
                   = characteristics st0 !! Hue
                 ∧ characteristics (for_each_property l st0).1 !! Saturation
                   = characteristics st0 !! Saturation) as Hloop.
  { induction l as [|p l IH]; intros st0; [done|].
    apply Forall_cons in Hl as [Hp Hl].
    cbn [for_each_property]. unfold mbind, action_bind.
    assert (∃ st1, dispatch p st0 = (st1, Normal ())
                   ∧ cache st1 = cache st0
                   ∧ characteristics st1 !! Hue = characteristics st0 !! Hue
                   ∧ characteristics st1 !! Saturation
                     = characteristics st0 !! Saturation)
      as (st1 & -> & <- & <- & <-).
    { unfold dispatch. rewrite Hp.
      destruct (String.eqb (pid p) WYZE_API_BRIGHTNESS_PROPERTY).
      { exists (updateBrightness (value p) st0).
        split; [done|]. cbn. by rewrite !lookup_insert_ne. }
      destruct (String.eqb (pid p) WYZE_API_COLOR_TEMP_PROPERTY).
      { exists (updateColorTemp (value p) st0).
        split; [done|]. cbn. by rewrite !lookup_insert_ne. }
      by exists st0. }
    by apply IH. }
  rewrite project_unfold. unfold mbind, action_bind, exec. cbn [fst snd].
  destruct (Hloop (updateValue On switch_state st)) as (-> & -> & -> & ->).
  cbn. by rewrite !lookup_insert_ne.
Qed.

End Snapshot.

(** * Further concrete runs *)
Section ConcreteFurther.

#[local] Existing Instance Reference.runtime.
#[local] Existing Instance Reference.color_convert.

(** The reference conversions encode every pair of hue and saturation. *)
Lemma reference_encodes_everything (h s : jsval) :
  ∃ hex, (rgb ← hsv_rgb h s (VNum 100); rgb_hex rgb) = Normal hex.
Proof.
  assert (∀ rgb, ∃ hex, rgb_hex rgb = Normal hex) as Hhex.
  { intros [l|[]]; eexists; reflexivity. }
  assert (∃ rgb, hsv_rgb h s (VNum 100) = Normal rgb) as [rgb ->].
  { destruct h as [| | |x|str]; try (eexists; reflexivity).
    cbn [hsv_rgb Reference.color_convert].
    destruct (1 <? String.length str)%nat; eexists; reflexivity. }
  apply Hhex.
Qed.

Lemma ui_device_ui_round_trip_witness :
  (153 ≤ 300 ≤ 555)%Z
  ∧ Number_to_Z (deviceToUI (VNum (uiToDevice (VNum (Number_of_Z 300))))) = Some 300%Z.
Proof.
  split; [lia|]. exact (proj2 (ui_device_ui_round_trip 300 ltac:(lia))).
Defined.

Lemma device_ui_device_within_six_witness :
  (1800 ≤ 2000 ≤ 6500)%Z
  ∧ (abs (uiToDevice (VNum (deviceToUI (VNum (Number_of_Z 2000)))) - Number_of_Z 2000)
     <=? 6)%float = true.
Proof. split; [lia|]. apply (device_ui_device_within_six 2000). lia. Defined.

Lemma remap_stays_in_range_witness :
  (1800 ≤ 2700 ≤ 6500)%Z
  ∧ ∃ m, deviceToUI_Z 2700 = Some m ∧ (153 ≤ m ≤ 555)%Z.
Proof. split; [lia|]. exact (proj1 remap_stays_in_range 2700%Z ltac:(lia)). Defined.

Lemma remap_monotone_witness :
  (1800 ≤ 2000)%Z ∧ (2000 ≤ 3000)%Z ∧ (3000 ≤ 6500)%Z
  ∧ ∃ x y, deviceToUI_Z 2000 = Some x ∧ deviceToUI_Z 3000 = Some y ∧ (x ≤ y)%Z.
Proof.
  do 3 (split; [lia|]).
  exact (proj1 remap_monotone 2000%Z 3000%Z ltac:(lia) ltac:(lia) ltac:(lia)).
Defined.

Lemma uiToDevice_does_not_clamp_witness :
  (0 ≤ 140 ≤ 152)%Z
  ∧ ∃ m, uiToDevice_Z 140 = Some m ∧ (m < 1800)%Z.
Proof. split; [lia|]. exact (proj1 uiToDevice_does_not_clamp 140%Z ltac:(lia)). Defined.

Lemma not_a_number_goes_through_witness :
  ToNumber VUndefined = nan
  ∧ uiToDevice VUndefined = nan.
Proof.
  assert (ToNumber VUndefined = nan) as Hnan by reflexivity.
  split; [exact Hnan|].
  exact (proj1 (proj2 (not_a_number_goes_through VUndefined (constructor ∅) Hnan))).
Defined.

Lemma cache_holds_last_request_witness :
  let post := [(SetSaturation (VNum 50), Resolved); (SetBrightness (VNum 10), Resolved)] in
  Forall (λ x, is_SetHue x.1 = false) post
  ∧ cache (run ([(SetHue (VNum 1), Resolved)] ++ (SetHue (VNum 120), Rejected timeout) :: post)
             (constructor ∅)).1 !! "hue" = Some (VNum 120).
Proof.
  intros post.
  assert (Forall (λ x, is_SetHue x.1 = false) post) as Hpost by by repeat constructor.
  split; [exact Hpost|].
  exact (proj1 (cache_holds_last_request [(SetHue (VNum 1), Resolved)] post (VNum 120)
                  (Rejected timeout) (constructor ∅)) Hpost).
Defined.

Lemma other_requests_do_not_disturb_witness :
  let mid := [(SetOn (VBool true), Resolved); (SetBrightness (VNum 80), Resolved)] in
  cacheUpdated (constructor ∅) = false
  ∧ Forall (λ x, is_color_request x.1 = false) mid
  ∧ (rgb ← hsv_rgb (VNum 120) (VNum 50) (VNum 100); rgb_hex rgb) = Normal (VStr "80FF80")
  ∧ (let st1 := (settle Resolved (handle (SetHue (VNum 120)) (constructor ∅))).1 in
     (run ((SetHue (VNum 120), Resolved) :: mid ++ [(SetSaturation (VNum 50), Resolved)])
        (constructor ∅)).2
     = [callback None] :: (run mid st1).2
       ++ [[setBufferedProperty "P1507" (VStr "80FF80"); callback (report Resolved)]]
     ∧ flush_count ([callback None] :: (run mid st1).2) = 0).
Proof.
  intros mid.
  assert (Forall (λ x, is_color_request x.1 = false) mid) as Hmid by by repeat constructor.
  assert ((rgb ← hsv_rgb (VNum 120) (VNum 50) (VNum 100); rgb_hex rgb)
          = Normal (VStr "80FF80")) as Hhex by (vm_compute; reflexivity).
  split; [reflexivity|]. split; [exact Hmid|]. split; [exact Hhex|].
  exact (other_requests_do_not_disturb (constructor ∅) (VNum 120) (VNum 50) (VStr "80FF80")
           Resolved Resolved mid eq_refl Hmid Hhex).
Defined.

Lemma requests_flush_in_pairs_witness :
  let rs := [(SetHue (VNum 120), Resolved); (SetSaturation (VNum 50), Resolved);
             (SetHue (VNum 240), Resolved)] in
  (∀ h s, ∃ hex, (rgb ← hsv_rgb h s (VNum 100); rgb_hex rgb) = Normal hex)
  ∧ Forall (λ x, is_color_request x.1 = true ∧ x.2 = Resolved) rs
  ∧ cacheUpdated (constructor ∅) = false
  ∧ flush_count (run rs (constructor ∅)).2 = length rs `div` 2
  ∧ cacheUpdated (run rs (constructor ∅)).1 = Nat.odd (length rs).
Proof.
  intros rs.
  assert (Forall (λ x, is_color_request x.1 = true ∧ x.2 = Resolved) rs) as Hrs
    by by repeat constructor.
  split; [exact reference_encodes_everything|]. split; [exact Hrs|].
  split; [reflexivity|].
  exact (requests_flush_in_pairs rs (constructor ∅) reference_encodes_everything Hrs eq_refl).
Defined.

Lemma rejected_requests_all_retry_witness :
  let rs := [(SetHue (VNum 120), Rejected timeout);
             (SetSaturation (VNum 50), Rejected timeout)] in
  let st := cacheUpdated_set true (constructor ∅) in
  (∀ h s, ∃ hex, (rgb ← hsv_rgb h s (VNum 100); rgb_hex rgb) = Normal hex)
  ∧ Forall (λ x, is_color_request x.1 = true ∧ ∃ e, x.2 = Rejected e) rs
  ∧ cacheUpdated st = true
  ∧ flush_count (run rs st).2 = length rs
  ∧ cacheUpdated (run rs st).1 = true.
Proof.
  intros rs st.
  assert (Forall (λ x, is_color_request x.1 = true ∧ ∃ e, x.2 = Rejected e) rs) as Hrs.
  { repeat constructor; by exists timeout. }
  split; [exact reference_encodes_everything|]. split; [exact Hrs|].
  split; [reflexivity|].
  exact (rejected_requests_all_retry rs st reference_encodes_everything Hrs eq_refl).
Defined.

Lemma remote_update_replaces_pending_hue_witness :
  let hsl := [VNum 0; VNum 100; VNum 100] in
  cacheUpdated (constructor ∅) = false
  ∧ hslValue (VStr "ff0000") = Normal (Array hsl)
  ∧ (rgb ← hsv_rgb (element hsl 0) (VNum 50) (VNum 100); rgb_hex rgb)
    = Normal (VStr "FF8080")
  ∧ (let st1 := (settle Resolved (handle (SetHue (VNum 120)) (constructor ∅))).1 in
     let st2 := (updateColor (VStr "ff0000") st1).1 in
     (settle Resolved (handle (SetSaturation (VNum 50)) st2)).2
     = [setBufferedProperty "P1507" (VStr "FF8080"); callback (report Resolved)]).
Proof.
  intros hsl.
  assert (hslValue (VStr "ff0000") = Normal (Array hsl)) as Hdec
    by (vm_compute; reflexivity).
  assert ((rgb ← hsv_rgb (element hsl 0) (VNum 50) (VNum 100); rgb_hex rgb)
          = Normal (VStr "FF8080")) as Hhex by (vm_compute; reflexivity).
  split; [reflexivity|]. split; [exact Hdec|]. split; [exact Hhex|].
  exact (remote_update_replaces_pending_hue (constructor ∅) (VNum 120) (VNum 50)
           (VStr "ff0000") (VStr "FF8080") hsl Resolved Resolved eq_refl Hdec Hhex).
Defined.

Lemma overlapping_requests_both_flush_witness :
  let st := cacheUpdated_set true (constructor ∅) in
  let r1 := SetHue (VNum 120) in
  let r2 := SetSaturation (VNum 50) in
  is_color_request r1 = true
  ∧ is_color_request r2 = true
  ∧ cacheUpdated st = true
  ∧ hexValue (store r1 st) = Normal (VStr "00FF00")
  ∧ hexValue (store r2 (store r1 st)) = Normal (VStr "80FF80")
  ∧ handle r2 (store r1 st)
    = Awaiting (store r2 (store r1 st)) "P1507" (VStr "80FF80") applyColorCache_resume.
Proof.
  intros st r1 r2.
  assert (hexValue (store r1 st) = Normal (VStr "00FF00")) as H1
    by (vm_compute; reflexivity).
  assert (hexValue (store r2 (store r1 st)) = Normal (VStr "80FF80")) as H2
    by (vm_compute; reflexivity).
  do 3 (split; [reflexivity|]). split; [exact H1|]. split; [exact H2|].
  exact (proj1 (proj2 (overlapping_requests_both_flush r1 r2 st (VStr "00FF00")
                         (VStr "80FF80") eq_refl eq_refl eq_refl H1 H2))).
Defined.

Lemma late_resolution_disarms_witness :
  let r3 := SetHue (VNum 120) in
  let r4 := SetSaturation (VNum 50) in
  is_color_request r3 = true
  ∧ is_color_request r4 = true
  ∧ cacheUpdated (constructor ∅) = false
  ∧ (let s4 := cacheUpdated_set true (store r3 (constructor ∅)) in
     let s5 := (applyColorCache_resume Resolved s4).1 in
     handle r3 (constructor ∅) = Finished s4 [callback None]
     ∧ cacheUpdated s5 = false
     ∧ handle r4 s5 = Finished (cacheUpdated_set true (store r4 s5)) [callback None]).
Proof.
  intros r3 r4. do 3 (split; [reflexivity|]).
  exact (late_resolution_disarms r3 r4 (constructor ∅) eq_refl eq_refl eq_refl).
Defined.

Lemma only_color_requests_move_the_machine_witness :
  is_color_request (SetOn (VBool true)) = false
  ∧ cacheUpdated (settle Resolved (handle (SetOn (VBool true)) (constructor ∅))).1
    = cacheUpdated (constructor ∅).
Proof.
  split; [reflexivity|].
  exact (proj1 only_color_requests_move_the_machine (SetOn (VBool true)) Resolved
           (constructor ∅) eq_refl).
Defined.

Lemma throwing_color_property_ends_the_loop_witness :
  let before := [Property "P1501" (VNum 40)] in
  let after := [Property "P1502" (VNum 2700)] in
  let p := Property "P1507" VUndefined in
  (for_each_property before (constructor ∅)).2 = Normal ()
  ∧ (dispatch p (for_each_property before (constructor ∅)).1).2 = Throw TypeError
  ∧ for_each_property (before ++ p :: after) (constructor ∅)
    = ((for_each_property before (constructor ∅)).1, Throw TypeError).
Proof.
  intros before after p.
  assert ((dispatch p (for_each_property before (constructor ∅)).1).2 = Throw TypeError)
    as Hp by (vm_compute; reflexivity).
  split; [reflexivity|]. split; [exact Hp|].
  exact (throwing_color_property_ends_the_loop before after p TypeError (constructor ∅)
           eq_refl Hp).
Defined.

Lemma snapshot_without_color_witness :
  let l := [Property "P1501" (VNum 40); Property "P1502" (VNum 2700);
            Property "P9999" (VStr "x")] in
  Forall (λ p, String.eqb (pid p) WYZE_API_COLOR_PROPERTY = false) l
  ∧ (project (VNum 1) (PropertyList l) (constructor ∅)).2 = Normal ()
  ∧ cache (project (VNum 1) (PropertyList l) (constructor ∅)).1 = cache (constructor ∅).
Proof.
  intros l.
  assert (Forall (λ p, String.eqb (pid p) WYZE_API_COLOR_PROPERTY = false) l) as Hl
    by by repeat constructor.
  split; [exact Hl|].
  pose proof (snapshot_without_color (VNum 1) l (constructor ∅) Hl) as (Hc & Hcache & _).
  split; [exact Hc | exact Hcache].
Defined.

End ConcreteFurther.
